(** * Fuzzy probabilities calculator

    A shallow embedding of [fuzzy_calculator.py] and [utils.py].

    Numbers: the arrays of the program hold floating-point numbers; here they
    are exact rationals in canonical form ([Qc]), so that equality is
    Leibniz equality and every definition computes.  Rounding is therefore
    not part of the model.  A one-dimensional array is a [list Qc].

    Effects: a method of the calculator is a function from the object's
    state to an outcome (a value or a raised exception) and the state after
    the call. *)

From Stdlib Require Import String Bool ZArith QArith Qcanon Qcabs Lia List Sorted.
Import ListNotations.

Open Scope string_scope.
Open Scope Qc_scope.
Open Scope list_scope.

(** ** Python values *)

Definition ndarray := list Qc.

Inductive exception : Type :=
| ValueError (msg : string)
| IndexError (msg : string)
| OverflowError (msg : string).

Inductive result (A : Type) : Type :=
| Ok (a : A)
| Raise (e : exception).

Arguments Ok {A} a.
Arguments Raise {A} e.

Definition is_ok {A} (r : result A) : bool :=
  match r with Ok _ => true | Raise _ => false end.

Definition Qcleb (x y : Qc) : bool :=
  match x ?= y with Gt => false | _ => true end.

Definition Qceqb (x y : Qc) : bool :=
  match x ?= y with Eq => true | _ => false end.

Definition Z2Qc (z : Z) : Qc := Q2Qc (inject_Z z).

(** [len(l)] as a Python int. *)
Definition len {A} (l : list A) : Z := Z.of_nat (length l).

(** [l[idx]] on a Python list: a negative index counts from the end,
    anything outside [-len, len) raises [IndexError]. *)
Definition py_getitem {A} (l : list A) (idx : Z) : result A :=
  let pos := if (idx <? 0)%Z then (len l + idx)%Z else idx in
  if (pos <? 0)%Z then Raise (IndexError "list index out of range")
  else match nth_error l (Z.to_nat pos) with
       | Some a => Ok a
       | None => Raise (IndexError "list index out of range")
       end.

(** [l[:stop]]: a negative [stop] counts from the end and is clipped at 0. *)
Definition py_slice_stop {A} (l : list A) (stop : Z) : list A :=
  let pos := if (stop <? 0)%Z then Z.max 0 (len l + stop) else stop in
  firstn (Z.to_nat pos) l.

(** [l[start:stop]] for [0 <= start] and [0 <= stop]. *)
Definition py_slice {A} (l : list A) (start stop : nat) : list A :=
  firstn (stop - start) (skipn start l).

(** [x ** n] for an integer exponent.  For [n < 0] and [x = 0] floating point
    gives [inf]; the rational model gives [0] there. *)
Definition py_pow (x : Qc) (n : Z) : Qc :=
  if (0 <=? n)%Z then Qcpower x (Z.to_nat n)
  else / Qcpower x (Z.to_nat (- n)).

(** The conversion of a Python int to a float, as it happens when an int
    meets a [np.float64] in an arithmetic operation: the int is rounded to
    53 bits, half to even, and the conversion raises [OverflowError] when
    the rounded value is [2 ^ 1024] or more, that is from
    [2 ^ 1024 - 2 ^ 970] on.  The rounding itself is not part of the
    model. *)
Definition int_to_float_limit : Z := (2 ^ 1024 - 2 ^ 970)%Z.

Definition py_int_to_float (n : Z) : result Qc :=
  if (Z.abs n <? int_to_float_limit)%Z then Ok (Z2Qc n)
  else Raise (OverflowError "int too large to convert to float").

(** ** The functions of numpy the program calls *)

Module np.

Definition sum (a : ndarray) : Qc := fold_right Qcplus 0 a.

Definition all (mask : list bool) : bool := forallb (fun b => b) mask.

Definition ge (a : ndarray) (x : Qc) : list bool := map (fun m => Qcleb x m) a.

Definition le (a : ndarray) (x : Qc) : list bool := map (fun m => Qcleb m x) a.

Definition div (a : ndarray) (x : Qc) : ndarray := map (fun m => m / x) a.

(** [np.pad(a, (0, n), constant_values=0.0)] *)
Definition pad (a : ndarray) (n : nat) : ndarray := a ++ repeat 0 n.

Fixpoint dot_aligned (a b : ndarray) : Qc :=
  match a, b with
  | x :: a', y :: b' => x * y + dot_aligned a' b'
  | _, _ => 0
  end.

(** [np.dot] on two one-dimensional arrays: the shapes have to agree. *)
Definition dot (a b : ndarray) : result Qc :=
  if Nat.eqb (length a) (length b) then Ok (dot_aligned a b)
  else Raise (ValueError "shapes not aligned").

Fixpoint insert_unique (x : Qc) (l : ndarray) : ndarray :=
  match l with
  | [] => [x]
  | y :: t =>
      match x ?= y with
      | Lt => x :: l
      | Eq => l
      | Gt => y :: insert_unique x t
      end
  end.

(** [np.unique]: the distinct values, ascending. *)
Definition unique (a : ndarray) : ndarray := fold_right insert_unique [] a.

(** The number of leading zeros, the [first] of [np.trim_zeros]. *)
Fixpoint leading_zeros (a : ndarray) : nat :=
  match a with
  | x :: a' => if Qceqb x 0 then S (leading_zeros a') else O
  | [] => O
  end.

(** [np.trim_zeros(filt)] with the default [trim='fb']:
    [first] counts the leading zeros, [last] is the length minus the
    trailing zeros, the result is [filt[first:last]]. *)
Definition trim_zeros (filt : ndarray) : ndarray :=
  let first := leading_zeros filt in
  let last := (length filt - leading_zeros (rev filt))%nat in
  py_slice filt first last.

Fixpoint nonzero_from (i : nat) (mask : list bool) : list nat :=
  match mask with
  | [] => []
  | b :: mask' =>
      if b then i :: nonzero_from (S i) mask' else nonzero_from (S i) mask'
  end.

(** [np.nonzero(mask)[0]]: the positions that hold [True]. *)
Definition nonzero (mask : list bool) : list nat := nonzero_from 0 mask.

(** [a[indices]] with an integer index array: every index has to be in
    bounds. *)
Fixpoint take (a : ndarray) (indices : list nat) : result ndarray :=
  match indices with
  | [] => Ok []
  | i :: rest =>
      match nth_error a i with
      | None => Raise (IndexError "index is out of bounds")
      | Some x =>
          match take a rest with
          | Ok xs => Ok (x :: xs)
          | Raise e => Raise e
          end
      end
  end.

Definition rtol : Qc := Q2Qc (1 # 100000).
Definition atol : Qc := Q2Qc (1 # 100000000).

(** [np.isclose(a, b)]: [|a - b| <= atol + rtol * |b|]. *)
Definition isclose (a b : Qc) : bool :=
  Qcleb (Qcabs (a - b)) (atol + rtol * Qcabs b).

End np.

(** ** [utils.py] *)

Module utils.

Definition universe_diverse (universe : ndarray) : bool :=
  Nat.eqb (length universe) (length (np.unique universe)).

Definition probabilities_valid (probabilities : ndarray) : bool :=
  np.all (np.ge probabilities 0)
  && np.all (np.le probabilities 1)
  && negb (np.isclose (np.sum probabilities) 0).

Definition probabilities_normalized (probabilities : ndarray) : bool :=
  np.isclose (np.sum probabilities) 1.

Definition normalize_probabilities (probabilities : ndarray) : ndarray :=
  let total := np.sum probabilities in
  np.div probabilities total.

End utils.

(** ** Library functions outside the repository *)

Module fuzz.

(** Modelled from the spec: [skfuzzy.fuzzy_not] is not part of the
    repository; the fuzzy complement is pointwise [1 - membership[i]]. *)
Definition fuzzy_not (mf : ndarray) : ndarray := map (fun m => 1 - m) mf.

End fuzz.

Module math.

Fixpoint binomial (n k : nat) : nat :=
  match n, k with
  | _, O => 1
  | O, S _ => 0
  | S n', S k' => binomial n' k' + binomial n' k
  end.

(** [math.comb(n, k)]: the binomial coefficient; a negative argument
    raises [ValueError]. *)
Definition comb (n k : Z) : result Z :=
  if (n <? 0)%Z then Raise (ValueError "n must be a non-negative integer")
  else if (k <? 0)%Z then Raise (ValueError "k must be a non-negative integer")
  else Ok (Z.of_nat (binomial (Z.to_nat n) (Z.to_nat k))).

End math.

(** ** The calculator object and its methods *)

Record FuzzyProbabilitiesCalculator : Type := {
  _probabilities : ndarray;
  _universe : ndarray;
  _events : list ndarray;
  _combined_events : list ndarray
}.

(** A method: from the state of [self] to an outcome and the state after. *)
Definition method (A : Type) : Type :=
  FuzzyProbabilitiesCalculator -> result A * FuzzyProbabilitiesCalculator.

Definition ret {A} (a : A) : method A := fun self => (Ok a, self).

Definition raise {A} (e : exception) : method A := fun self => (Raise e, self).

Definition bind {A B} (m : method A) (k : A -> method B) : method B :=
  fun self =>
    match m self with
    | (Ok a, self') => k a self'
    | (Raise e, self') => (Raise e, self')
    end.

Definition gets {A} (field : FuzzyProbabilitiesCalculator -> A) : method A :=
  fun self => (Ok (field self), self).

Definition modify (f : FuzzyProbabilitiesCalculator -> FuzzyProbabilitiesCalculator)
  : method unit :=
  fun self => (Ok tt, f self).

Definition lift {A} (r : result A) : method A := fun self => (r, self).

Notation "x <- m ;; k" := (bind m (fun x => k))
  (at level 61, m at next level, right associativity).

(** A [for] loop that appends one value per element. *)
Fixpoint for_each {A B} (f : A -> method B) (l : list A) : method (list B) :=
  match l with
  | [] => ret []
  | a :: l' => b <- f a ;; bs <- for_each f l' ;; ret (b :: bs)
  end.

Definition returned {A} (m : method A) (self : FuzzyProbabilitiesCalculator)
  : result A := fst (m self).

Definition state_after {A} (m : method A) (self : FuzzyProbabilitiesCalculator)
  : FuzzyProbabilitiesCalculator := snd (m self).

Definition __init__ (universe probabilities : ndarray) (normalize : bool)
  : result FuzzyProbabilitiesCalculator :=
  if negb (utils.universe_diverse universe) then
    Raise (ValueError "Every elementary event should be different")
  else if negb (utils.probabilities_valid probabilities) then
    Raise (ValueError
      "All probabilities should be in [0,1] interval and their sum cannot be zero")
  else
    let build p :=
      Ok {| _probabilities := p; _universe := universe;
            _events := []; _combined_events := [] |} in
    if negb (utils.probabilities_normalized probabilities) then
      if negb normalize then
        Raise (ValueError "Sum of all probabilities values should be equal to 1")
      else build (utils.normalize_probabilities probabilities)
    else build probabilities.

Definition _normalized_event (event : ndarray) : method ndarray :=
  universe <- gets _universe ;;
  let size_diff := (len universe - len event)%Z in
  if (0 <? size_diff)%Z then ret (np.pad event (Z.to_nat size_diff))
  else if (size_diff <? 0)%Z then ret (py_slice_stop event size_diff)
  else ret event.

Definition add_event (membership : ndarray) : method Z :=
  normalized <- _normalized_event membership ;;
  _ <- modify (fun self =>
         {| _probabilities := _probabilities self;
            _universe := _universe self;
            _events := _events self ++ [normalized];
            _combined_events := _combined_events self |}) ;;
  events <- gets _events ;;
  ret (len events - 1)%Z.

Definition probability (event : ndarray) : method Qc :=
  normalized <- _normalized_event event ;;
  probabilities <- gets _probabilities ;;
  lift (np.dot event probabilities).

Definition fuzzy_probability (event : ndarray) : method (ndarray * ndarray) :=
  normalized <- _normalized_event event ;;
  let alphas := np.trim_zeros (np.unique normalized) in
  probs <- for_each (fun a =>
             let indices := np.nonzero (np.ge normalized a) in
             probabilities <- gets _probabilities ;;
             selected <- lift (np.take probabilities indices) ;;
             ret (np.sum selected)) alphas ;;
  ret (probs, alphas).

Definition bernoulli (event : ndarray) (success failure : Z) : method Qc :=
  normalized <- _normalized_event event ;;
  success_prob <- probability normalized ;;
  failure_prob <- probability (fuzz.fuzzy_not normalized) ;;
  c <- lift (math.comb (success + failure) success) ;;
  coefficient <- lift (py_int_to_float c) ;;
  ret (coefficient * py_pow success_prob success
       * py_pow failure_prob failure).

(** [events_sum] and [events_intersection] fold a binary operation of the
    fuzzy-set library over the selected events.  [skfuzzy.fuzzy_add] and
    [skfuzzy.fuzzy_and] are outside the repository: they are parameters here,
    taking [(x, mfx, y, mfy)] and returning the pair [(z, mfz)] or raising. *)

Definition fuzzy_op : Type :=
  ndarray -> ndarray -> ndarray -> ndarray -> result (ndarray * ndarray).

(** [[events[idx] for idx in events_indices if idx < len(events)]] *)
Fixpoint select_events (events : list ndarray) (events_indices : list Z)
  : result (list ndarray) :=
  match events_indices with
  | [] => Ok []
  | idx :: rest =>
      if (idx <? len events)%Z then
        match py_getitem events idx with
        | Raise e => Raise e
        | Ok event =>
            match select_events events rest with
            | Raise e => Raise e
            | Ok selected => Ok (event :: selected)
            end
        end
      else select_events events rest
  end.

(** [for event in rest: result = op(universe, result, universe, event)[1]] *)
Fixpoint combine_loop (op : fuzzy_op) (universe result_ : ndarray)
  (rest : list ndarray) : result ndarray :=
  match rest with
  | [] => Ok result_
  | event :: rest' =>
      match op universe result_ universe event with
      | Raise e => Raise e
      | Ok (_, mfz) => combine_loop op universe mfz rest'
      end
  end.

Definition combine_events (op : fuzzy_op) (events_indices : list Z)
  : method ndarray :=
  match events_indices with
  | [] => raise (ValueError "At least one event index must be provided")
  | _ :: _ =>
      events <- gets _events ;;
      selected_events <- lift (select_events events events_indices) ;;
      if (len selected_events =? 1)%Z then lift (py_getitem selected_events 0)
      else
        first <- lift (py_getitem selected_events 0) ;;
        universe <- gets _universe ;;
        lift (combine_loop op universe first (skipn 1 selected_events))
  end.

Section Combination.

Variables fuzzy_add fuzzy_and : fuzzy_op.

Definition events_sum (events_indices : list Z) : method ndarray :=
  combine_events fuzzy_add events_indices.

Definition events_intersection (events_indices : list Z) : method ndarray :=
  combine_events fuzzy_and events_indices.

End Combination.

(** ** What the specification calls things *)

(** Length normalisation in the words of the specification: pad on the right
    with zeros when the event is shorter than the universe, drop the trailing
    elements when it is longer, leave it unchanged otherwise. *)
Definition length_normalize (N : nat) (event : ndarray) : ndarray :=
  let L := length event in
  if (L <? N)%nat then event ++ repeat 0 (N - L)
  else if (N <? L)%nat then firstn N event
  else event.

(** The dot product as a sum of index-wise products over the first [N]
    indices. *)
Definition dot_product (N : nat) (a b : ndarray) : Qc :=
  np.sum (map (fun i => nth i a 0 * nth i b 0) (seq 0 N)).

(** The probability mass of an alpha cut: the sum of the distribution values
    at the indices whose membership is at least [a]. *)
Definition alpha_cut_mass (membership distribution : ndarray) (a : Qc) : Qc :=
  np.sum (map snd (filter (fun mp => Qcleb a (fst mp))
                          (combine membership distribution))).

(** The state a successfully constructed calculator keeps: a distribution
    index-aligned with the universe, with no negative mass. *)
Definition aligned (self : FuzzyProbabilitiesCalculator) : Prop :=
  length (_probabilities self) = length (_universe self).

Definition nonnegative (distribution : ndarray) : Prop :=
  Forall (fun p => 0 <= p) distribution.

(** "Approximately equal" is the tolerance test of [np.isclose]. *)
Definition approximately (a b : Qc) : Prop :=
  Qcabs (a - b) <= np.atol + np.rtol * Qcabs b.

(** A method that never changes the object, whatever it returns. *)
Definition read_only {A} (m : method A) : Prop :=
  forall self, state_after m self = self.

(** ** Concrete objects

    The calculator of the docstrings, [FuzzyProbabilities(np.array([0, 1, 2]),
    np.array([0.3, 0.4, 0.3]))], and the events used with it. *)

Definition qc (n : Z) (d : positive) : Qc := Q2Qc (n # d).

Definition docstring_universe : ndarray := [Z2Qc 0; Z2Qc 1; Z2Qc 2].

Definition docstring_probabilities : ndarray := [qc 3 10; qc 4 10; qc 3 10].

Definition docstring_calculator : FuzzyProbabilitiesCalculator :=
  {| _probabilities := docstring_probabilities;
     _universe := docstring_universe;
     _events := [];
     _combined_events := [] |}.

Definition event1 : ndarray := [qc 2 10; qc 5 10; qc 3 10].

Definition event2 : ndarray := [qc 1 10; qc 6 10; qc 3 10].

(** The calculator after [add_event(event1)] and [add_event(event2)]. *)
Definition calculator_with_two_events : FuzzyProbabilitiesCalculator :=
  state_after (add_event event2) (state_after (add_event event1) docstring_calculator).

(** An event shorter and an event longer than the universe. *)
Definition short_event : ndarray := [qc 2 10; qc 5 10].

Definition long_event : ndarray := [qc 2 10; qc 5 10; qc 3 10; qc 1 10].

(** An event with a zero between a negative and a positive membership. *)
Definition signed_event : ndarray := [Z2Qc (-1); Z2Qc 0; Z2Qc 1].

(** A distribution that sums to 1.2. *)
Definition heavy_probabilities : ndarray := [qc 4 10; qc 4 10; qc 4 10].

(** Pointwise minimum and maximum, to run the combination methods with the
    library parameters filled in. *)
Definition pointwise (f : Qc -> Qc -> Qc) : fuzzy_op :=
  fun x mfx _ mfy => Ok (x, map (fun ab => f (fst ab) (snd ab)) (combine mfx mfy)).

Definition Qcmin (a b : Qc) : Qc := if Qcleb a b then a else b.

Definition Qcmax (a b : Qc) : Qc := if Qcleb a b then b else a.


(** ** Further notions *)

(** Registering a sequence of events, one [add_event] call each, as the
    callers do. *)
Definition add_events (memberships : list ndarray) : method (list Z) :=
  for_each add_event memberships.

(** The layer-cake sum of the two sequences [fuzzy_probability] returns:
    each probability weighted by the step from the previous alpha level. *)
Fixpoint layer_cake (previous : Qc) (alphas probs : ndarray) : Qc :=
  match alphas, probs with
  | a :: alphas', p :: probs' =>
      (a - previous) * p + layer_cake a alphas' probs'
  | _, _ => 0
  end.

(** The steps of the alpha levels up to a membership [x]: the sum of the
    steps [a - previous] over the levels [a <= x]. *)
Fixpoint staircase (previous : Qc) (alphas : ndarray) (x : Qc) : Qc :=
  match alphas with
  | [] => 0
  | a :: alphas' =>
      (if Qcleb a x then a - previous else 0) + staircase a alphas' x
  end.

(** The binomial mass of [k] successes in [n] trials with success
    probability [p] and failure probability [q]. *)
Definition binomial_mass (p q : Qc) (n k : nat) : Qc :=
  Z2Qc (Z.of_nat (math.binomial n k)) * p ^ k * q ^ (n - k).

(** A left fold of a library operation over events, in the words of the
    list library: the accumulator starts at [first], every event in turn is
    combined with it over the universe, the membership component of the
    operation's result is the next accumulator, and an exception ends the
    fold. *)
Definition folded_left (op : fuzzy_op) (universe first : ndarray)
  (rest : list ndarray) : result ndarray :=
  fold_left
    (fun acc event =>
       match acc with
       | Raise e => Raise e
       | Ok mf =>
           match op universe mf universe event with
           | Ok zmf => Ok (snd zmf)
           | Raise e => Raise e
           end
       end)
    rest (Ok first).


(** A crisp event: every membership is 0 or 1. *)
Definition crisp (event : ndarray) : Prop :=
  Forall (fun m => m = 0 \/ m = 1) event.

(** The events at the indices below the number of events, in order. *)
Definition kept_indices (events : list ndarray) (events_indices : list Z)
  : list Z :=
  filter (fun idx => (idx <? len events)%Z) events_indices.

(** ** Comparisons *)

Lemma Qcleb_le (x y : Qc) : Qcleb x y = true <-> x <= y.
Proof.
  unfold Qcleb. rewrite Qcle_alt.
  destruct (x ?= y); split; intros; congruence.
Qed.

Lemma Qcleb_gt (x y : Qc) : Qcleb x y = false <-> y < x.
Proof.
  unfold Qcleb. rewrite (Qcgt_alt x y).
  destruct (x ?= y); split; intros; congruence.
Qed.

Lemma Qceqb_eq (x y : Qc) : Qceqb x y = true <-> x = y.
Proof.
  unfold Qceqb. rewrite Qceq_alt.
  destruct (x ?= y); split; intros; congruence.
Qed.

Lemma Qclt_irrefl (x : Qc) : ~ x < x.
Proof. intros H. apply Qclt_not_eq in H. congruence. Qed.

Lemma Qcle_plus_nonneg (p s t : Qc) : 0 <= p -> s <= t -> s <= p + t.
Proof.
  intros Hp Hst. replace s with (0 + s) by ring.
  apply Qcplus_le_compat; assumption.
Qed.

(** ** Running methods *)

Ltac run :=
  unfold returned, state_after, bind, gets, ret, lift, raise, modify; simpl.

Lemma length_normalize_length (N : nat) (event : ndarray) :
  length (length_normalize N event) = N.
Proof.
  unfold length_normalize.
  destruct (length event <? N)%nat eqn:E1.
  - apply Nat.ltb_lt in E1. rewrite length_app, repeat_length. lia.
  - destruct (N <? length event)%nat eqn:E2.
    + apply Nat.ltb_lt in E2. rewrite length_firstn. lia.
    + apply Nat.ltb_ge in E1. apply Nat.ltb_ge in E2. lia.
Qed.

(** [_normalized_event] computes the length normalisation and leaves the
    object alone. *)
Lemma _normalized_event_run (event : ndarray) (self : FuzzyProbabilitiesCalculator) :
  _normalized_event event self
  = (Ok (length_normalize (length (_universe self)) event), self).
Proof.
  unfold _normalized_event, length_normalize, py_slice_stop, len. run.
  destruct (0 <? Z.of_nat (length (_universe self)) - Z.of_nat (length event))%Z eqn:E1.
  - apply Z.ltb_lt in E1.
    replace (length event <? length (_universe self))%nat with true
      by (symmetry; apply Nat.ltb_lt; lia).
    unfold np.pad. repeat f_equal. lia.
  - apply Z.ltb_ge in E1.
    replace (length event <? length (_universe self))%nat with false
      by (symmetry; apply Nat.ltb_ge; lia).
    destruct (Z.of_nat (length (_universe self)) - Z.of_nat (length event) <? 0)%Z eqn:E2.
    + apply Z.ltb_lt in E2.
      replace (length (_universe self) <? length event)%nat with true
        by (symmetry; apply Nat.ltb_lt; lia).
      repeat f_equal. lia.
    + apply Z.ltb_ge in E2.
      replace (length (_universe self) <? length event)%nat with false
        by (symmetry; apply Nat.ltb_ge; lia).
      reflexivity.
Qed.

Lemma length_normalize_same (N : nat) (event : ndarray) :
  length event = N -> length_normalize N event = event.
Proof.
  intros <-. unfold length_normalize. now rewrite Nat.ltb_irrefl.
Qed.

(** ** The dot product *)

Lemma dot_product_cons (N : nat) (x y : Qc) (a b : ndarray) :
  dot_product (S N) (x :: a) (y :: b) = x * y + dot_product N a b.
Proof.
  unfold dot_product. simpl. f_equal.
  rewrite <- seq_shift, map_map. reflexivity.
Qed.

Lemma dot_aligned_dot_product (a b : ndarray) :
  length a = length b -> np.dot_aligned a b = dot_product (length a) a b.
Proof.
  revert b. induction a as [|x a IH]; intros [|y b] Hlen; simpl in *;
    try discriminate; try reflexivity.
  rewrite dot_product_cons, IH by lia. reflexivity.
Qed.

Lemma np_dot_aligned (a b : ndarray) :
  length a = length b -> np.dot a b = Ok (dot_product (length a) a b).
Proof.
  intros Hlen. unfold np.dot.
  rewrite (proj2 (Nat.eqb_eq _ _) Hlen).
  now rewrite dot_aligned_dot_product.
Qed.

Lemma np_dot_misaligned (a b : ndarray) :
  length a <> length b -> np.dot a b = Raise (ValueError "shapes not aligned").
Proof.
  intros Hlen. unfold np.dot.
  now rewrite (proj2 (Nat.eqb_neq _ _) Hlen).
Qed.

Lemma probability_run (event : ndarray) (self : FuzzyProbabilitiesCalculator) :
  probability event self = (np.dot event (_probabilities self), self).
Proof.
  unfold probability, bind. rewrite _normalized_event_run. reflexivity.
Qed.

Lemma dot_aligned_complement (a b : ndarray) :
  length a = length b ->
  np.dot_aligned a b + np.dot_aligned (fuzz.fuzzy_not a) b = np.sum b.
Proof.
  revert b. induction a as [|x a IH]; intros [|y b] Hlen; simpl in *;
    try discriminate.
  - ring.
  - rewrite <- (IH b) by lia. unfold fuzz.fuzzy_not. ring.
Qed.

Lemma fuzzy_not_length (mf : ndarray) : length (fuzz.fuzzy_not mf) = length mf.
Proof. apply length_map. Qed.

(** ** [np.unique]: the same values, strictly ascending *)

Lemma insert_unique_In (x a : Qc) (l : ndarray) :
  In a (np.insert_unique x l) <-> a = x \/ In a l.
Proof.
  induction l as [|y t IH]; simpl.
  - intuition congruence.
  - destruct (x ?= y) eqn:E; simpl.
    + apply Qceq_alt in E. subst y. intuition congruence.
    + intuition congruence.
    + rewrite IH. intuition congruence.
Qed.

Lemma insert_unique_sorted (x : Qc) (l : ndarray) :
  StronglySorted Qclt l -> StronglySorted Qclt (np.insert_unique x l).
Proof.
  induction 1 as [|y t Ht IH Hy]; simpl.
  - constructor; constructor.
  - destruct (x ?= y) eqn:E.
    + constructor; assumption.
    + apply Qclt_alt in E. constructor.
      * constructor; assumption.
      * constructor; [assumption|].
        eapply Forall_impl; [|exact Hy].
        intros z Hz. eapply Qclt_trans; eassumption.
    + apply Qcgt_alt in E. constructor; [assumption|].
      apply Forall_forall. intros z Hz.
      apply insert_unique_In in Hz as [->|Hz]; [assumption|].
      rewrite Forall_forall in Hy. auto.
Qed.

Lemma unique_In (a : Qc) (l : ndarray) : In a (np.unique l) <-> In a l.
Proof.
  induction l as [|x l IH]; simpl; [tauto|].
  rewrite insert_unique_In, IH. intuition congruence.
Qed.

Lemma unique_sorted (l : ndarray) : StronglySorted Qclt (np.unique l).
Proof.
  induction l; simpl; [constructor | now apply insert_unique_sorted].
Qed.

Lemma sorted_NoDup (l : ndarray) : StronglySorted Qclt l -> NoDup l.
Proof.
  induction 1 as [|y t Ht IH Hy]; constructor; [|assumption].
  intros Hin. rewrite Forall_forall in Hy.
  exact (Qclt_irrefl y (Hy y Hin)).
Qed.

(** [universe_diverse] decides that the elements are pairwise distinct. *)
Lemma universe_diverse_NoDup (universe : ndarray) :
  utils.universe_diverse universe = true <-> NoDup universe.
Proof.
  unfold utils.universe_diverse. rewrite Nat.eqb_eq.
  pose proof (sorted_NoDup _ (unique_sorted universe)) as Hu.
  split; intros H.
  - apply NoDup_incl_NoDup with (l := np.unique universe); [assumption|lia|].
    intros a. apply unique_In.
  - apply Nat.le_antisymm; apply NoDup_incl_length; try assumption;
      intros a; apply unique_In.
Qed.

(** Position facts for a strictly ascending list. *)
Lemma sorted_nth_lt (l : ndarray) (i j : nat) (x y : Qc) :
  StronglySorted Qclt l -> (i < j)%nat ->
  nth_error l i = Some x -> nth_error l j = Some y -> x < y.
Proof.
  intros Hs. revert i j. induction Hs as [|z t Ht IH Hz]; intros i j Hij Hi Hj.
  - destruct i; discriminate.
  - destruct j as [|j]; [lia|]. simpl in Hj.
    destruct i as [|i]; simpl in Hi.
    + injection Hi as ->. rewrite Forall_forall in Hz.
      apply Hz. eapply nth_error_In; eassumption.
    + apply (IH i j); [lia|assumption|assumption].
Qed.

Lemma sorted_skipn (n : nat) (l : ndarray) :
  StronglySorted Qclt l -> StronglySorted Qclt (skipn n l).
Proof.
  revert l. induction n as [|n IH]; intros l Hs; simpl; [assumption|].
  destruct l; [constructor|]. inversion Hs; subst. now apply IH.
Qed.

Lemma In_firstn {A} (n : nat) (l : list A) (x : A) :
  In x (firstn n l) -> In x l.
Proof.
  revert l. induction n as [|n IH]; intros [|y l]; simpl; try tauto.
  intros [->|H]; auto.
Qed.

Lemma In_skipn {A} (n : nat) (l : list A) (x : A) :
  In x (skipn n l) -> In x l.
Proof.
  revert l. induction n as [|n IH]; intros [|y l]; simpl; try tauto.
  intros H. right. auto.
Qed.

Lemma sorted_firstn (n : nat) (l : ndarray) :
  StronglySorted Qclt l -> StronglySorted Qclt (firstn n l).
Proof.
  revert l. induction n as [|n IH]; intros l Hs; simpl; [constructor|].
  destruct l; [constructor|]. inversion Hs; subst.
  constructor; [now apply IH|].
  rewrite Forall_forall in *. intros z Hz. apply In_firstn in Hz. auto.
Qed.

(** ** [np.trim_zeros]: positions kept and positions dropped *)

Lemma leading_zeros_nth (l : ndarray) (i : nat) :
  (i < np.leading_zeros l)%nat -> nth_error l i = Some 0.
Proof.
  revert i. induction l as [|x l IH]; intros i Hi; simpl in *; [lia|].
  destruct (Qceqb x 0) eqn:E; [|lia].
  apply Qceqb_eq in E. subst x.
  destruct i as [|i]; simpl; [reflexivity|]. apply IH. lia.
Qed.

Lemma leading_zeros_head (l : ndarray) :
  nth_error l 0 = Some 0 -> (1 <= np.leading_zeros l)%nat.
Proof.
  destruct l as [|x l]; simpl; [discriminate|].
  intros [= ->]. replace (Qceqb 0 0) with true; [lia|].
  symmetry. now apply Qceqb_eq.
Qed.

Lemma trim_zeros_In_pos (l : ndarray) (a : Qc) :
  In a (np.trim_zeros l) <->
  exists i, (np.leading_zeros l <= i)%nat
            /\ (i < length l - np.leading_zeros (rev l))%nat
            /\ nth_error l i = Some a.
Proof.
  unfold np.trim_zeros, py_slice. rewrite In_iff_nth_error.
  set (first := np.leading_zeros l).
  set (last := (length l - np.leading_zeros (rev l))%nat).
  split.
  - intros [j Hj]. rewrite nth_error_firstn in Hj.
    destruct (Nat.ltb_spec j (last - first)) as [Hlt|]; [|discriminate].
    rewrite nth_error_skipn in Hj.
    exists (first + j)%nat. repeat split; [lia|lia|assumption].
  - intros (i & Hlo & Hhi & Hi). exists (i - first)%nat.
    rewrite nth_error_firstn.
    destruct (Nat.ltb_spec (i - first) (last - first)) as [|Hge]; [|lia].
    rewrite nth_error_skipn. now replace (first + (i - first))%nat with i by lia.
Qed.

Lemma trim_zeros_incl (l : ndarray) (a : Qc) :
  In a (np.trim_zeros l) -> In a l.
Proof.
  rewrite trim_zeros_In_pos. intros (i & _ & _ & Hi).
  eapply nth_error_In; eassumption.
Qed.

(** Only zeros are trimmed. *)
Lemma trim_zeros_keeps_nonzero (l : ndarray) (a : Qc) :
  In a l -> a <> 0 -> In a (np.trim_zeros l).
Proof.
  intros Hin Ha. apply In_nth_error in Hin as [i Hi].
  apply trim_zeros_In_pos. exists i.
  assert (Hlen : (i < length l)%nat)
    by (apply nth_error_Some; congruence).
  repeat split; [| |assumption].
  - destruct (Nat.le_gt_cases (np.leading_zeros l) i) as [|Hlt]; [assumption|].
    apply leading_zeros_nth in Hlt. congruence.
  - destruct (Nat.lt_ge_cases i (length l - np.leading_zeros (rev l)))
      as [|Hge]; [assumption|].
    assert (Hrev : (length l - S i < np.leading_zeros (rev l))%nat) by lia.
    apply leading_zeros_nth in Hrev.
    rewrite nth_error_rev in Hrev.
    destruct (Nat.ltb_spec (length l - S i) (length l)); [|lia].
    replace (length l - S (length l - S i))%nat with i in Hrev by lia.
    congruence.
Qed.

Lemma trim_zeros_sorted (l : ndarray) :
  StronglySorted Qclt l -> StronglySorted Qclt (np.trim_zeros l).
Proof.
  intros Hs. unfold np.trim_zeros, py_slice.
  now apply sorted_firstn, sorted_skipn.
Qed.

(** A zero that survives the trimming of a strictly ascending array has a
    negative value before it and a positive value after it. *)
Lemma trim_zeros_zero_inside (l : ndarray) :
  StronglySorted Qclt l -> In 0 (np.trim_zeros l) ->
  (exists x, In x l /\ x < 0) /\ (exists y, In y l /\ 0 < y).
Proof.
  intros Hs Hin. apply trim_zeros_In_pos in Hin as (i & Hlo & Hhi & Hi).
  split.
  - destruct i as [|i].
    + apply leading_zeros_head in Hi. lia.
    + destruct (nth_error l i) as [x|] eqn:Hx.
      * exists x. split; [eapply nth_error_In; eassumption|].
        apply (sorted_nth_lt l i (S i)); auto.
      * apply nth_error_None in Hx. lia.
  - destruct (nth_error l (S i)) as [y|] eqn:Hy.
    + exists y. split; [eapply nth_error_In; eassumption|].
      apply (sorted_nth_lt l i (S i)); auto.
    + apply nth_error_None in Hy.
      assert (Hrev : nth_error (rev l) 0 = Some 0).
      { rewrite nth_error_rev.
        destruct (Nat.ltb_spec 0 (length l)); [|lia].
        replace (length l - 1)%nat with i by lia. assumption. }
      apply leading_zeros_head in Hrev. lia.
Qed.

(** ** Alpha cuts *)

Lemma for_each_run {A B} (f : A -> method B) (g : A -> B) (l : list A)
  (self : FuzzyProbabilitiesCalculator) :
  (forall a, In a l -> f a self = (Ok (g a), self)) ->
  for_each f l self = (Ok (map g l), self).
Proof.
  induction l as [|a l IH]; intros Hf; simpl; [reflexivity|].
  unfold bind. rewrite Hf by (now left).
  rewrite IH by (intros; apply Hf; now right). reflexivity.
Qed.

(** Selecting by the index array of a comparison and summing is the mass of
    the cut. *)
Lemma take_nonzero_ge (a : Qc) (membership pre distribution : ndarray) :
  (length membership <= length distribution)%nat ->
  np.take (pre ++ distribution)
          (np.nonzero_from (length pre) (np.ge membership a))
  = Ok (map snd (filter (fun mp => Qcleb a (fst mp))
                        (combine membership distribution))).
Proof.
  revert pre distribution.
  induction membership as [|m membership IH]; intros pre [|p distribution] Hlen;
    simpl in *; try reflexivity; try lia.
  assert (Hrest :
    np.take (pre ++ p :: distribution)
            (np.nonzero_from (S (length pre)) (np.ge membership a))
    = Ok (map snd (filter (fun mp => Qcleb a (fst mp))
                          (combine membership distribution)))).
  { replace (pre ++ p :: distribution) with ((pre ++ [p]) ++ distribution)
      by (now rewrite <- app_assoc).
    replace (S (length pre)) with (length (pre ++ [p]))
      by (rewrite length_app; simpl; lia).
    apply IH. lia. }
  destruct (Qcleb a m); simpl; [|exact Hrest].
  rewrite nth_error_app2 by lia. rewrite Nat.sub_diag. simpl.
  now rewrite Hrest.
Qed.

Lemma fuzzy_probability_run (event : ndarray) (self : FuzzyProbabilitiesCalculator) :
  aligned self ->
  let normalized := length_normalize (length (_universe self)) event in
  let alphas := np.trim_zeros (np.unique normalized) in
  fuzzy_probability event self
  = (Ok (map (alpha_cut_mass normalized (_probabilities self)) alphas, alphas),
     self).
Proof.
  intros Hal normalized alphas.
  unfold fuzzy_probability, bind at 1. rewrite _normalized_event_run.
  fold normalized. fold alphas. unfold bind at 1.
  rewrite for_each_run
    with (g := alpha_cut_mass normalized (_probabilities self)).
  - reflexivity.
  - intros a _. run. unfold np.nonzero.
    pose proof (take_nonzero_ge a normalized [] (_probabilities self)) as Ht.
    simpl in Ht. rewrite Ht.
    + reflexivity.
    + unfold normalized. rewrite length_normalize_length.
      unfold aligned in Hal. lia.
Qed.

(** With no negative mass, a higher cut has no more mass. *)
Lemma alpha_cut_mass_antitone (membership distribution : ndarray) (a b : Qc) :
  nonnegative distribution -> a <= b ->
  alpha_cut_mass membership distribution b
  <= alpha_cut_mass membership distribution a.
Proof.
  intros Hnn Hab. revert distribution Hnn. unfold alpha_cut_mass.
  induction membership as [|m membership IH]; intros [|p distribution] Hnn;
    simpl; try apply Qcle_refl.
  inversion Hnn as [|? ? Hp Hrest]; subst.
  specialize (IH distribution Hrest).
  destruct (Qcleb b m) eqn:Eb; destruct (Qcleb a m) eqn:Ea; simpl.
  - apply Qcplus_le_compat; [apply Qcle_refl|assumption].
  - apply Qcleb_le in Eb. apply Qcleb_gt in Ea.
    exfalso. apply (Qclt_irrefl m).
    eapply Qclt_le_trans; [exact Ea|].
    eapply Qcle_trans; eassumption.
  - now apply Qcle_plus_nonneg.
  - assumption.
Qed.

Lemma sorted_map_antitone (f : Qc -> Qc) (l : ndarray) :
  (forall x y, x < y -> f y <= f x) ->
  StronglySorted Qclt l ->
  StronglySorted (fun p q => q <= p) (map f l).
Proof.
  intros Hf. induction 1 as [|x t Ht IH Hx]; simpl; constructor;
    [assumption|].
  rewrite Forall_forall in *. intros q Hq.
  apply in_map_iff in Hq as (y & <- & Hy). auto.
Qed.

(** ** Construction *)

Lemma isclose_approximately (a b : Qc) :
  np.isclose a b = true <-> approximately a b.
Proof. apply Qcleb_le. Qed.

Lemma not_isclose_approximately (a b : Qc) :
  np.isclose a b = false <-> ~ approximately a b.
Proof.
  rewrite <- isclose_approximately. destruct (np.isclose a b); intuition congruence.
Qed.

Lemma approximately_zero_zero : approximately 0 0.
Proof. apply isclose_approximately. vm_compute. reflexivity. Qed.

Lemma np_all_ge (a : ndarray) (x : Qc) :
  np.all (np.ge a x) = true <-> Forall (fun m => x <= m) a.
Proof.
  unfold np.all, np.ge. induction a as [|m a IH]; simpl.
  - split; constructor.
  - rewrite andb_true_iff, IH, Qcleb_le. split.
    + intros [? ?]. now constructor.
    + intros H. inversion H. tauto.
Qed.

Lemma np_all_le (a : ndarray) (x : Qc) :
  np.all (np.le a x) = true <-> Forall (fun m => m <= x) a.
Proof.
  unfold np.all, np.le. induction a as [|m a IH]; simpl.
  - split; constructor.
  - rewrite andb_true_iff, IH, Qcleb_le. split.
    + intros [? ?]. now constructor.
    + intros H. inversion H. tauto.
Qed.

(** [probabilities_valid] in the words of the specification. *)
Lemma probabilities_valid_iff (probabilities : ndarray) :
  utils.probabilities_valid probabilities = true <->
  Forall (fun p => 0 <= p <= 1) probabilities
  /\ ~ approximately (np.sum probabilities) 0.
Proof.
  unfold utils.probabilities_valid.
  rewrite !andb_true_iff, negb_true_iff, np_all_ge, np_all_le,
    not_isclose_approximately.
  rewrite !Forall_forall. firstorder.
Qed.

Lemma sum_div (a : ndarray) (x : Qc) : np.sum (np.div a x) = np.sum a / x.
Proof.
  unfold np.div, Qcdiv. induction a as [|m a IH]; simpl.
  - ring.
  - rewrite IH. ring.
Qed.

Lemma normalize_probabilities_sum (probabilities : ndarray) :
  np.sum probabilities <> 0 ->
  np.sum (utils.normalize_probabilities probabilities) = 1.
Proof.
  intros Hnz. unfold utils.normalize_probabilities.
  rewrite sum_div. unfold Qcdiv. now apply Qcmult_inv_r.
Qed.

Lemma Qcinv_nonneg (x : Qc) : 0 <= x -> 0 <= / x.
Proof.
  unfold Qcle. intros H. simpl. rewrite Qred_correct.
  now apply Qinv_le_0_compat.
Qed.

Lemma Qcdiv_nonneg (x y : Qc) : 0 <= x -> 0 <= y -> 0 <= x / y.
Proof.
  intros Hx Hy. unfold Qcdiv.
  replace 0 with (0 * / y) by ring.
  apply Qcmult_le_compat_r; [assumption|now apply Qcinv_nonneg].
Qed.

Lemma sum_nonneg (a : ndarray) : nonnegative a -> 0 <= np.sum a.
Proof.
  induction 1 as [|p a Hp _ IH]; simpl.
  - apply Qcle_refl.
  - replace 0 with (0 + 0) by ring. now apply Qcplus_le_compat.
Qed.

Lemma normalize_probabilities_nonneg (probabilities : ndarray) :
  nonnegative probabilities ->
  nonnegative (utils.normalize_probabilities probabilities).
Proof.
  intros Hnn. pose proof (sum_nonneg _ Hnn) as Hs.
  unfold utils.normalize_probabilities, np.div, nonnegative.
  rewrite Forall_map. eapply Forall_impl; [|exact Hnn].
  intros p Hp. now apply Qcdiv_nonneg.
Qed.

(** What a successful construction establishes. *)
Lemma init_invariant (universe probabilities : ndarray) (normalize : bool)
  (self : FuzzyProbabilitiesCalculator) :
  __init__ universe probabilities normalize = Ok self ->
  _universe self = universe /\ _events self = []
  /\ NoDup universe
  /\ length (_probabilities self) = length probabilities
  /\ nonnegative (_probabilities self).
Proof.
  unfold __init__.
  destruct (utils.universe_diverse universe) eqn:Eu; simpl; [|discriminate].
  apply universe_diverse_NoDup in Eu.
  destruct (utils.probabilities_valid probabilities) eqn:Ev; simpl;
    [|discriminate].
  apply probabilities_valid_iff in Ev as [Hrange _].
  assert (Hnn : nonnegative probabilities).
  { eapply Forall_impl; [|exact Hrange]. simpl. tauto. }
  destruct (utils.probabilities_normalized probabilities); simpl.
  - intros [= <-]. simpl. auto.
  - destruct normalize; simpl; [|discriminate].
    intros [= <-]. simpl. repeat split; auto.
    + unfold utils.normalize_probabilities, np.div. apply length_map.
    + now apply normalize_probabilities_nonneg.
Qed.

(** ** Methods that only read *)

Lemma read_only_ret {A} (a : A) : read_only (ret a).
Proof. intros self. reflexivity. Qed.

Lemma read_only_raise {A} (e : exception) : read_only (@raise A e).
Proof. intros self. reflexivity. Qed.

Lemma read_only_lift {A} (r : result A) : read_only (lift r).
Proof. intros self. reflexivity. Qed.

Lemma read_only_gets {A} (field : FuzzyProbabilitiesCalculator -> A) :
  read_only (gets field).
Proof. intros self. reflexivity. Qed.

Lemma read_only_bind {A B} (m : method A) (k : A -> method B) :
  read_only m -> (forall a, read_only (k a)) -> read_only (bind m k).
Proof.
  intros Hm Hk self. unfold state_after, bind.
  specialize (Hm self). unfold state_after in Hm.
  destruct (m self) as [[a|e] self']; simpl in *; subst self'.
  - apply Hk.
  - reflexivity.
Qed.

Lemma read_only_for_each {A B} (f : A -> method B) (l : list A) :
  (forall a, read_only (f a)) -> read_only (for_each f l).
Proof.
  intros Hf. induction l as [|a l IH]; simpl.
  - apply read_only_ret.
  - apply read_only_bind; [apply Hf|]. intros b.
    apply read_only_bind; [apply IH|]. intros bs. apply read_only_ret.
Qed.

Create HintDb read_only.
#[export] Hint Resolve read_only_ret read_only_raise read_only_lift
  read_only_gets : read_only.

Ltac read_only_steps :=
  repeat first
    [ apply read_only_bind; [|intros ?]
    | apply read_only_for_each; intros ?
    | solve [auto with read_only]
    | match goal with
      | |- read_only (if ?b then _ else _) => destruct b
      | |- read_only (let _ := _ in _) => cbv zeta
      end ].

Lemma read_only__normalized_event (event : ndarray) :
  read_only (_normalized_event event).
Proof. unfold _normalized_event. read_only_steps. Qed.

#[export] Hint Resolve read_only__normalized_event : read_only.

Lemma read_only_probability (event : ndarray) : read_only (probability event).
Proof. unfold probability. read_only_steps. Qed.

#[export] Hint Resolve read_only_probability : read_only.

Lemma read_only_fuzzy_probability (event : ndarray) :
  read_only (fuzzy_probability event).
Proof. unfold fuzzy_probability. read_only_steps. Qed.

Lemma read_only_bernoulli (event : ndarray) (success failure : Z) :
  read_only (bernoulli event success failure).
Proof. unfold bernoulli. read_only_steps. Qed.

Lemma read_only_combine_events (op : fuzzy_op) (events_indices : list Z) :
  read_only (combine_events op events_indices).
Proof.
  unfold combine_events. destruct events_indices; read_only_steps.
Qed.

(** [add_event] appends the normalised event and touches nothing else. *)
Lemma add_event_run (membership : ndarray) (self : FuzzyProbabilitiesCalculator) :
  add_event membership self
  = (Ok (len (_events self)),
     {| _probabilities := _probabilities self;
        _universe := _universe self;
        _events := _events self
                   ++ [length_normalize (length (_universe self)) membership];
        _combined_events := _combined_events self |}).
Proof.
  unfold add_event, bind at 1. rewrite _normalized_event_run. run.
  do 2 f_equal. unfold len. rewrite length_app. simpl. lia.
Qed.

(** ** Indexing the registered events *)

Lemma py_getitem_raises {A} (l : list A) (idx : Z) (e : exception) :
  py_getitem l idx = Raise e -> e = IndexError "list index out of range".
Proof.
  unfold py_getitem.
  destruct ((if (idx <? 0)%Z then (len l + idx)%Z else idx) <? 0)%Z.
  - now intros [= <-].
  - destruct (nth_error l _); [discriminate|now intros [= <-]].
Qed.

Lemma py_getitem_in_range {A} (l : list A) (idx : Z) :
  (0 <= idx < len l)%Z ->
  exists a, nth_error l (Z.to_nat idx) = Some a /\ py_getitem l idx = Ok a.
Proof.
  intros Hr. unfold py_getitem, len in *.
  destruct (Z.ltb_spec idx 0); [lia|].
  destruct (Z.ltb_spec idx 0); [lia|].
  destruct (nth_error l (Z.to_nat idx)) as [a|] eqn:E.
  - exists a. auto.
  - apply nth_error_None in E. lia.
Qed.

(** A negative index down to [-len] counts from the end. *)
Lemma py_getitem_negative {A} (l : list A) (idx : Z) :
  (- len l <= idx <= -1)%Z ->
  exists a, nth_error l (Z.to_nat (len l + idx)) = Some a
            /\ py_getitem l idx = Ok a.
Proof.
  intros Hr. unfold py_getitem, len in *.
  destruct (Z.ltb_spec idx 0); [|lia].
  destruct (Z.ltb_spec (Z.of_nat (length l) + idx) 0); [lia|].
  destruct (nth_error l (Z.to_nat (Z.of_nat (length l) + idx))) as [a|] eqn:E.
  - exists a. auto.
  - apply nth_error_None in E. lia.
Qed.

(** Below [-len] the lookup fails. *)
Lemma py_getitem_below {A} (l : list A) (idx : Z) :
  (idx < - len l)%Z ->
  py_getitem l idx = Raise (IndexError "list index out of range").
Proof.
  intros Hr. unfold py_getitem, len in *.
  destruct (Z.ltb_spec idx 0); [|lia].
  destruct (Z.ltb_spec (Z.of_nat (length l) + idx) 0); [reflexivity|lia].
Qed.

Lemma select_events_cons_kept (events : list ndarray) (idx : Z)
  (rest : list Z) (event : ndarray) :
  (idx < len events)%Z -> py_getitem events idx = Ok event ->
  select_events events (idx :: rest)
  = match select_events events rest with
    | Ok selected => Ok (event :: selected)
    | Raise e => Raise e
    end.
Proof.
  intros Hlt Hget. simpl.
  destruct (Z.ltb_spec idx (len events)); [|lia].
  now rewrite Hget.
Qed.

Lemma select_events_below (events : list ndarray) (events_indices : list Z)
  (idx : Z) :
  In idx events_indices -> (idx < - len events)%Z ->
  select_events events events_indices
  = Raise (IndexError "list index out of range").
Proof.
  intros Hin Hlow.
  induction events_indices as [|i rest IH]; simpl in *; [tauto|].
  destruct (Z.ltb_spec i (len events)) as [Hi|Hi].
  - destruct (py_getitem events i) as [event|e] eqn:Hget.
    + destruct Hin as [->|Hin].
      * rewrite py_getitem_below in Hget by assumption. discriminate.
      * now rewrite IH.
    + apply py_getitem_raises in Hget. now subst e.
  - destruct Hin as [->|Hin]; [|auto].
    unfold len in *. lia.
Qed.

Lemma combine_events_run (op : fuzzy_op) (idx : Z) (rest : list Z)
  (self : FuzzyProbabilitiesCalculator) :
  returned (combine_events op (idx :: rest)) self
  = match select_events (_events self) (idx :: rest) with
    | Raise e => Raise e
    | Ok selected_events =>
        if (len selected_events =? 1)%Z then py_getitem selected_events 0
        else match py_getitem selected_events 0 with
             | Raise e => Raise e
             | Ok first =>
                 combine_loop op (_universe self) first
                              (skipn 1 selected_events)
             end
    end.
Proof.
  unfold combine_events, returned, bind, gets, lift. cbv beta iota.
  destruct (select_events (_events self) (idx :: rest)) as [sel|e];
    [|reflexivity].
  destruct (len sel =? 1)%Z; [reflexivity|].
  destruct (py_getitem sel 0); reflexivity.
Qed.

(** ** The binomial coefficient *)

Lemma binomial_above (n k : nat) : (n < k)%nat -> math.binomial n k = 0%nat.
Proof.
  revert k. induction n as [|n IH]; intros [|k] H; simpl; try lia.
  rewrite !IH by lia. reflexivity.
Qed.

Lemma binomial_diag (n : nat) : math.binomial n n = 1%nat.
Proof.
  induction n as [|n IH]; simpl; [reflexivity|].
  rewrite IH, binomial_above by lia. reflexivity.
Qed.

(** [binomial (m + k) k] is [(m + k)! / (k! m!)]. *)
Lemma binomial_factorial (m k : nat) :
  (math.binomial (m + k) k * (fact k * fact m) = fact (m + k))%nat.
Proof.
  revert k. induction m as [|m IHm]; intros k.
  - simpl. rewrite binomial_diag. simpl. lia.
  - induction k as [|k IHk].
    + rewrite Nat.add_0_r. destruct m; simpl; lia.
    + replace (S m + S k)%nat with (S (m + S k)) by lia.
      change (math.binomial (S (m + S k)) (S k))
        with (math.binomial (m + S k) k + math.binomial (m + S k) (S k))%nat.
      specialize (IHm (S k)).
      replace (m + S k)%nat with (S m + k)%nat in * by lia.
      change (fact (S (S m + k))) with (S (S m + k) * fact (S m + k))%nat.
      change (fact (S k)) with (S k * fact k)%nat in *.
      change (fact (S m)) with (S m * fact m)%nat in *.
      nia.
Qed.

(** ** The binomial coefficient and the range of a float *)



Lemma binomial_le_pow2 (n k : nat) :
  (Z.of_nat (math.binomial n k) <= 2 ^ Z.of_nat n)%Z.
Proof.
  revert k. induction n as [|n IH]; intros [|k].
  - simpl. lia.
  - simpl. lia.
  - change (math.binomial (S n) 0) with 1%nat.
    pose proof (Z.pow_pos_nonneg 2 (Z.of_nat (S n))). lia.
  - change (math.binomial (S n) (S k))
      with (math.binomial n k + math.binomial n (S k))%nat.
    rewrite Nat2Z.inj_add, Nat2Z.inj_succ, Z.pow_succ_r by lia.
    pose proof (IH k). pose proof (IH (S k)). lia.
Qed.

(** Up to 1023 trials every binomial coefficient converts to a float. *)
Lemma binomial_in_float_range (n k : nat) :
  (n <= 1023)%nat ->
  (Z.of_nat (math.binomial n k) < int_to_float_limit)%Z.
Proof.
  intros Hn. eapply Z.le_lt_trans; [apply binomial_le_pow2|].
  eapply Z.le_lt_trans.
  - apply (Z.pow_le_mono_r 2 (Z.of_nat n) 1023); lia.
  - vm_compute. reflexivity.
Qed.


Lemma py_int_to_float_in_range (n : Z) :
  (0 <= n < int_to_float_limit)%Z -> py_int_to_float n = Ok (Z2Qc n).
Proof.
  intros Hn. unfold py_int_to_float.
  destruct (Z.ltb_spec (Z.abs n) int_to_float_limit); [reflexivity|lia].
Qed.


Lemma bernoulli_run (self : FuzzyProbabilitiesCalculator) (event : ndarray)
  (success failure : Z) :
  aligned self ->
  let normalized := length_normalize (length (_universe self)) event in
  returned (bernoulli event success failure) self
  = match math.comb (success + failure) success with
    | Raise e => Raise e
    | Ok c =>
        match py_int_to_float c with
        | Raise e => Raise e
        | Ok coefficient =>
            Ok (coefficient
                * py_pow (np.dot_aligned normalized (_probabilities self))
                         success
                * py_pow (np.dot_aligned (fuzz.fuzzy_not normalized)
                                         (_probabilities self)) failure)
        end
    end.
Proof.
  intros Hal normalized. unfold aligned in Hal.
  assert (Hnp : length normalized = length (_probabilities self)).
  { unfold normalized. rewrite length_normalize_length. congruence. }
  unfold returned, bernoulli, bind.
  rewrite _normalized_event_run. fold normalized.
  rewrite !probability_run. unfold np.dot.
  rewrite fuzzy_not_length, (proj2 (Nat.eqb_eq _ _) Hnp).
  unfold lift. destruct (math.comb (success + failure) success) as [c|e];
    [|reflexivity].
  destruct (py_int_to_float c); reflexivity.
Qed.

Lemma math_comb_nonnegative (n k : Z) :
  (0 <= k)%Z -> (0 <= n)%Z ->
  math.comb n k = Ok (Z.of_nat (math.binomial (Z.to_nat n) (Z.to_nat k))).
Proof.
  intros Hk Hn. unfold math.comb.
  destruct (Z.ltb_spec n 0); [lia|].
  destruct (Z.ltb_spec k 0); [lia|]. reflexivity.
Qed.

Lemma py_pow_nonnegative (x : Qc) (n : Z) :
  (0 <= n)%Z -> py_pow x n = x ^ Z.to_nat n.
Proof.
  intros Hn. unfold py_pow. destruct (Z.leb_spec 0 n); [reflexivity|lia].
Qed.

(** ** The concrete calculator *)

Lemma docstring_calculator_constructed :
  __init__ docstring_universe docstring_probabilities false
  = Ok docstring_calculator.
Proof. vm_compute. reflexivity. Qed.

Lemma docstring_calculator_aligned : aligned docstring_calculator.
Proof. reflexivity. Qed.

(** Equality of concrete rationals, by their canonical fractions. *)
Ltac qc_eq := apply Qc_is_canon; vm_compute; reflexivity.

(** * The properties of the specification *)

(** C1. For an event whose length is the universe length N (the length of
    the stored distribution too), [probability] returns exactly the dot
    product of the event, as passed, with the stored distribution. *)
Theorem probability_is_dot_product
  (self : FuzzyProbabilitiesCalculator) (event : ndarray) :
  aligned self ->
  length event = length (_universe self) ->
  returned (probability event) self
  = Ok (dot_product (length (_universe self)) event (_probabilities self)).
Proof.
  intros Hal Hlen. unfold returned. rewrite probability_run. simpl.
  rewrite <- Hlen. apply np_dot_aligned.
  unfold aligned in Hal. congruence.
Qed.

Lemma probability_is_dot_product_witness :
  returned (probability event1) docstring_calculator
  = Ok (dot_product 3 event1 docstring_probabilities).
Proof.
  apply (probability_is_dot_product docstring_calculator event1);
    reflexivity.
Defined.

(** C2 (fails on the code). [probability] computes the length-normalised
    event and then multiplies the event as passed: for an event shorter or
    longer than the universe the call raises the shape error of [np.dot],
    although the normalised event would have fitted the distribution. *)
Theorem probability_rejects_other_lengths :
  returned (probability short_event) docstring_calculator
  = Raise (ValueError "shapes not aligned")
  /\ returned (probability long_event) docstring_calculator
     = Raise (ValueError "shapes not aligned")
  /\ is_ok (np.dot (length_normalize 3 short_event) docstring_probabilities)
     = true
  /\ is_ok (np.dot (length_normalize 3 long_event) docstring_probabilities)
     = true.
Proof. repeat split; vm_compute; reflexivity. Qed.

(** The other operations that take a raw membership array do use the
    normalised event and complete for every length (for [bernoulli], with
    counts whose binomial coefficient converts to a float). *)
Lemma other_operations_tolerate_any_length
  (self : FuzzyProbabilitiesCalculator) (event : ndarray)
  (success failure : Z) :
  aligned self -> (0 <= success)%Z -> (0 <= failure)%Z ->
  (Z.of_nat (math.binomial (Z.to_nat (success + failure)) (Z.to_nat success))
   < int_to_float_limit)%Z ->
  is_ok (returned (fuzzy_probability event) self) = true
  /\ is_ok (returned (bernoulli event success failure) self) = true
  /\ is_ok (returned (add_event event) self) = true.
Proof.
  intros Hal Hs Hf Hc. repeat split.
  - unfold returned. now rewrite fuzzy_probability_run.
  - rewrite bernoulli_run by assumption.
    rewrite math_comb_nonnegative by lia.
    rewrite py_int_to_float_in_range by lia. reflexivity.
  - unfold returned. now rewrite add_event_run.
Qed.

(** C10. For an event of length exactly N, the probability of the event plus
    the probability of its pointwise complement [1 - e[i]] is the sum of the
    stored distribution, whatever the membership values are; it is 1 when
    the stored distribution sums to 1. *)
Theorem probability_plus_complement
  (self : FuzzyProbabilitiesCalculator) (event : ndarray) :
  aligned self ->
  length event = length (_universe self) ->
  exists p q,
    returned (probability event) self = Ok p
    /\ returned (probability (map (fun m => 1 - m) event)) self = Ok q
    /\ p + q = np.sum (_probabilities self)
    /\ (np.sum (_probabilities self) = 1 -> p + q = 1).
Proof.
  intros Hal Hlen. unfold aligned in Hal.
  assert (Hep : length event = length (_probabilities self)) by congruence.
  exists (np.dot_aligned event (_probabilities self)),
         (np.dot_aligned (fuzz.fuzzy_not event) (_probabilities self)).
  unfold returned. rewrite !probability_run. simpl. unfold np.dot.
  rewrite length_map, (proj2 (Nat.eqb_eq _ _) Hep).
  pose proof (dot_aligned_complement event (_probabilities self) Hep) as Hsum.
  repeat split; try assumption. congruence.
Qed.

Lemma probability_plus_complement_witness :
  exists p q,
    returned (probability signed_event) docstring_calculator = Ok p
    /\ returned (probability (map (fun m => 1 - m) signed_event))
                docstring_calculator = Ok q
    /\ p + q = np.sum docstring_probabilities
    /\ (np.sum docstring_probabilities = 1 -> p + q = 1).
Proof.
  apply (probability_plus_complement docstring_calculator signed_event);
    reflexivity.
Defined.




(** C6. For a universe of distinct elements and a distribution with all
    values in [0,1] whose sum is neither approximately 0 nor approximately
    1: construction without [normalize] fails with the error of an
    unnormalised distribution; construction with [normalize] succeeds and
    stores the distribution divided element-wise by its sum, which sums
    to 1. *)
Theorem construction_of_unnormalized_distribution
  (universe probabilities : ndarray) :
  NoDup universe ->
  Forall (fun p => 0 <= p <= 1) probabilities ->
  ~ approximately (np.sum probabilities) 0 ->
  ~ approximately (np.sum probabilities) 1 ->
  __init__ universe probabilities false
  = Raise (ValueError "Sum of all probabilities values should be equal to 1")
  /\ exists self,
       __init__ universe probabilities true = Ok self
       /\ _universe self = universe
       /\ _events self = []
       /\ _probabilities self
          = map (fun p => p / np.sum probabilities) probabilities
       /\ np.sum (_probabilities self) = 1.
Proof.
  intros Hu Hrange Hzero Hone.
  assert (Hnz : np.sum probabilities <> 0).
  { intros E. apply Hzero. rewrite E. exact approximately_zero_zero. }
  unfold __init__.
  rewrite (proj2 (universe_diverse_NoDup universe) Hu).
  rewrite (proj2 (probabilities_valid_iff probabilities) (conj Hrange Hzero)).
  unfold utils.probabilities_normalized.
  rewrite (proj2 (not_isclose_approximately _ _) Hone). simpl.
  split; [reflexivity|].
  eexists. split; [reflexivity|]. simpl.
  repeat split. now apply normalize_probabilities_sum.
Qed.

Lemma construction_of_unnormalized_distribution_witness :
  __init__ docstring_universe heavy_probabilities false
  = Raise (ValueError "Sum of all probabilities values should be equal to 1")
  /\ exists self,
       __init__ docstring_universe heavy_probabilities true = Ok self
       /\ _universe self = docstring_universe
       /\ _events self = []
       /\ _probabilities self
          = map (fun p => p / np.sum heavy_probabilities) heavy_probabilities
       /\ np.sum (_probabilities self) = 1.
Proof.
  apply (construction_of_unnormalized_distribution
           docstring_universe heavy_probabilities).
  - apply universe_diverse_NoDup. vm_compute. reflexivity.
  - repeat constructor; vm_compute; discriminate.
  - intros H. vm_compute in H. apply H. reflexivity.
  - intros H. vm_compute in H. apply H. reflexivity.
Defined.

(** C3, as stated, fails: [np.trim_zeros] removes zeros at the two ends of
    the sorted distinct values only.  For the memberships [-1, 0, 1] the
    value 0 is returned as an alpha level. *)
Lemma fuzzy_probability_zero_alpha_level :
  returned (fuzzy_probability signed_event) docstring_calculator
  = Ok ([Z2Qc 1; qc 7 10; qc 3 10], [Z2Qc (-1); Z2Qc 0; Z2Qc 1])
  /\ ~ (forall a,
          In a [Z2Qc (-1); Z2Qc 0; Z2Qc 1]
          <-> In a (length_normalize 3 signed_event) /\ a <> 0).
Proof.
  split.
  - unfold returned.
    rewrite (fuzzy_probability_run signed_event docstring_calculator
               docstring_calculator_aligned).
    simpl fst. do 2 f_equal. repeat (f_equal; try qc_eq).
  - intros H.
    assert (Hin : In (Z2Qc 0) [Z2Qc (-1); Z2Qc 0; Z2Qc 1]) by (simpl; auto).
    apply H in Hin. destruct Hin as [_ Hz]. apply Hz. reflexivity.
Qed.

(** C3, amended.  When the distribution has the universe's length and the
    length-normalised event does not hold a zero together with both a
    negative and a positive value (so for every event with non-negative
    membership), [fuzzy_probability] returns the alpha levels, which are
    exactly the distinct non-zero memberships of the normalised event in
    ascending order, and for each alpha level the mass of the distribution
    at the indices whose membership is at least that level; an all-zero
    event gives two empty sequences. *)
Theorem fuzzy_probability_alpha_cuts
  (self : FuzzyProbabilitiesCalculator) (event : ndarray) :
  aligned self ->
  let normalized := length_normalize (length (_universe self)) event in
  ~ (In 0 normalized
     /\ (exists x, In x normalized /\ x < 0)
     /\ (exists y, In y normalized /\ 0 < y)) ->
  exists probs alphas,
    returned (fuzzy_probability event) self = Ok (probs, alphas)
    /\ StronglySorted Qclt alphas
    /\ (forall a, In a alphas <-> In a normalized /\ a <> 0)
    /\ probs = map (alpha_cut_mass normalized (_probabilities self)) alphas
    /\ (Forall (fun m => m = 0) normalized -> probs = [] /\ alphas = []).
Proof.
  intros Hal normalized Hsign.
  set (alphas := np.trim_zeros (np.unique normalized)).
  exists (map (alpha_cut_mass normalized (_probabilities self)) alphas), alphas.
  assert (Hlevels : forall a, In a alphas <-> In a normalized /\ a <> 0).
  { intros a. unfold alphas. split.
    - intros Hin.
      assert (Hmem : In a normalized)
        by (apply unique_In; now apply trim_zeros_incl).
      split; [assumption|]. intros ->.
      apply trim_zeros_zero_inside in Hin as [[x [Hx Hneg]] [y [Hy Hpos]]];
        [|apply unique_sorted].
      apply Hsign. repeat split; [assumption| |].
      + exists x. split; [now apply unique_In|assumption].
      + exists y. split; [now apply unique_In|assumption].
    - intros [Hin Ha]. apply trim_zeros_keeps_nonzero; [|assumption].
      now apply unique_In. }
  assert (Hempty : Forall (fun m => m = 0) normalized -> alphas = []).
  { intros Hz. destruct alphas as [|a t]; [reflexivity|].
    destruct (proj1 (Hlevels a) (or_introl eq_refl)) as [Hin Ha].
    rewrite Forall_forall in Hz. now apply Hz in Hin. }
  unfold returned. rewrite fuzzy_probability_run by assumption.
  fold normalized. fold alphas. simpl.
  split; [reflexivity|].
  split; [apply trim_zeros_sorted, unique_sorted|].
  split; [exact Hlevels|].
  split; [reflexivity|].
  intros Hz. rewrite (Hempty Hz). split; reflexivity.
Qed.

Lemma fuzzy_probability_alpha_cuts_witness :
  exists probs alphas,
    returned (fuzzy_probability short_event) docstring_calculator
    = Ok (probs, alphas)
    /\ StronglySorted Qclt alphas
    /\ (forall a, In a alphas
                  <-> In a (length_normalize 3 short_event) /\ a <> 0)
    /\ probs = map (alpha_cut_mass (length_normalize 3 short_event)
                                   docstring_probabilities) alphas
    /\ (Forall (fun m => m = 0) (length_normalize 3 short_event)
        -> probs = [] /\ alphas = []).
Proof.
  apply (fuzzy_probability_alpha_cuts docstring_calculator short_event).
  - reflexivity.
  - intros (_ & (x & Hx & Hneg) & _).
    vm_compute in Hx.
    destruct Hx as [<-|[<-|[<-|[]]]]; vm_compute in Hneg; discriminate.
Defined.

(** C4. The alpha levels returned by [fuzzy_probability] are strictly
    ascending, and the probabilities, one per level, never increase along
    them.  The stored distribution has the universe's length and no negative
    value, as construction leaves it. *)
Theorem fuzzy_probability_monotone
  (self : FuzzyProbabilitiesCalculator) (event : ndarray) :
  aligned self -> nonnegative (_probabilities self) ->
  exists probs alphas,
    returned (fuzzy_probability event) self = Ok (probs, alphas)
    /\ length probs = length alphas
    /\ StronglySorted Qclt alphas
    /\ StronglySorted (fun p q => q <= p) probs.
Proof.
  intros Hal Hnn.
  set (normalized := length_normalize (length (_universe self)) event).
  set (alphas := np.trim_zeros (np.unique normalized)).
  exists (map (alpha_cut_mass normalized (_probabilities self)) alphas), alphas.
  assert (Hs : StronglySorted Qclt alphas)
    by apply trim_zeros_sorted, unique_sorted.
  unfold returned. rewrite fuzzy_probability_run by assumption.
  repeat split.
  - apply length_map.
  - exact Hs.
  - apply sorted_map_antitone; [|exact Hs].
    intros x y Hxy. apply alpha_cut_mass_antitone; [assumption|].
    now apply Qclt_le_weak.
Qed.

Lemma fuzzy_probability_monotone_witness :
  exists probs alphas,
    returned (fuzzy_probability signed_event) docstring_calculator
    = Ok (probs, alphas)
    /\ length probs = length alphas
    /\ StronglySorted Qclt alphas
    /\ StronglySorted (fun p q => q <= p) probs.
Proof.
  apply (fuzzy_probability_monotone docstring_calculator signed_event).
  - reflexivity.
  - repeat constructor; vm_compute; discriminate.
Defined.

(** ** Combination of registered events *)

Lemma combine_events_empty (op : fuzzy_op) (self : FuzzyProbabilitiesCalculator) :
  returned (combine_events op []) self
  = Raise (ValueError "At least one event index must be provided").
Proof. reflexivity. Qed.

(** C7 (fails on the code).  An empty index list is refused with the
    [ValueError] of the method.  Indices at or above the number of registered
    events are filtered out, but when nothing is left the method reads
    [selected_events[0]] all the same and raises [IndexError]; and an index
    below [-len(events)] passes the filter and raises in the lookup. *)
Theorem combination_raises_on_out_of_range_index (fuzzy_add fuzzy_and : fuzzy_op) :
  returned (events_sum fuzzy_add []) docstring_calculator
  = Raise (ValueError "At least one event index must be provided")
  /\ returned (events_sum fuzzy_add [0%Z]) docstring_calculator
     = Raise (IndexError "list index out of range")
  /\ returned (events_intersection fuzzy_and [0%Z]) docstring_calculator
     = Raise (IndexError "list index out of range")
  /\ returned (events_sum fuzzy_add [2%Z; 5%Z]) calculator_with_two_events
     = Raise (IndexError "list index out of range")
  /\ returned (events_intersection fuzzy_and [2%Z; 5%Z]) calculator_with_two_events
     = Raise (IndexError "list index out of range")
  /\ returned (events_sum fuzzy_add [0%Z; (-3)%Z]) calculator_with_two_events
     = Raise (IndexError "list index out of range").
Proof. repeat split; vm_compute; reflexivity. Qed.

(** C8.  [probability], [fuzzy_probability], [bernoulli], [events_sum] and
    [events_intersection] leave the object as it was, whether they return or
    raise; [add_event] is the one method that changes it: it appends the
    normalised event and keeps the universe and the distribution. *)
Theorem only_add_event_mutates
  (fuzzy_add fuzzy_and : fuzzy_op) (self : FuzzyProbabilitiesCalculator)
  (event : ndarray) (success failure : Z) (events_indices : list Z) :
  state_after (probability event) self = self
  /\ state_after (fuzzy_probability event) self = self
  /\ state_after (bernoulli event success failure) self = self
  /\ state_after (events_sum fuzzy_add events_indices) self = self
  /\ state_after (events_intersection fuzzy_and events_indices) self = self
  /\ _universe (state_after (add_event event) self) = _universe self
  /\ _probabilities (state_after (add_event event) self) = _probabilities self
  /\ _events (state_after (add_event event) self)
     = _events self ++ [length_normalize (length (_universe self)) event]
  /\ state_after (add_event event) self <> self.
Proof.
  split; [apply read_only_probability|].
  split; [apply read_only_fuzzy_probability|].
  split; [apply read_only_bernoulli|].
  split; [apply read_only_combine_events|].
  split; [apply read_only_combine_events|].
  unfold state_after. rewrite add_event_run. simpl.
  repeat split.
  intros H. apply (f_equal (fun s => length (_events s))) in H.
  simpl in H. rewrite length_app in H. simpl in H. lia.
Qed.

(** C9.  With [k] registered events, an index [i] with [-k <= i <= -1]
    passes the filter [idx < k] and selects the event at position [k + i];
    an index below [-k] makes the call raise [IndexError]. *)
Theorem negative_index_counts_from_end
  (fuzzy_add fuzzy_and : fuzzy_op) (self : FuzzyProbabilitiesCalculator)
  (i : Z) :
  let k := len (_events self) in
  ((- k <= i <= -1)%Z ->
   exists event,
     nth_error (_events self) (Z.to_nat (k + i)) = Some event
     /\ (forall rest,
           select_events (_events self) (i :: rest)
           = match select_events (_events self) rest with
             | Ok selected => Ok (event :: selected)
             | Raise e => Raise e
             end)
     /\ returned (events_sum fuzzy_add [i]) self = Ok event
     /\ returned (events_intersection fuzzy_and [i]) self = Ok event)
  /\ ((i < - k)%Z ->
      forall events_indices, In i events_indices ->
        returned (events_sum fuzzy_add events_indices) self
        = Raise (IndexError "list index out of range")
        /\ returned (events_intersection fuzzy_and events_indices) self
           = Raise (IndexError "list index out of range")).
Proof.
  intros k. split.
  - intros Hr.
    destruct (py_getitem_negative (_events self) i Hr) as (event & Hnth & Hget).
    assert (Hlt : (i < len (_events self))%Z) by (unfold len, k in *; lia).
    exists event. split; [exact Hnth|].
    split; [intros rest; now apply select_events_cons_kept|].
    unfold events_sum, events_intersection.
    rewrite !combine_events_run.
    rewrite (select_events_cons_kept _ i [] event Hlt Hget). simpl.
    split; reflexivity.
  - intros Hlow events_indices Hin.
    unfold events_sum, events_intersection.
    destruct events_indices as [|idx rest]; [destruct Hin|].
    rewrite !combine_events_run.
    rewrite (select_events_below _ _ i Hin Hlow). split; reflexivity.
Qed.

Lemma negative_index_counts_from_end_witness :
  (exists event,
     nth_error (_events calculator_with_two_events) 1 = Some event
     /\ (forall rest,
           select_events (_events calculator_with_two_events) ((-1)%Z :: rest)
           = match select_events (_events calculator_with_two_events) rest with
             | Ok selected => Ok (event :: selected)
             | Raise e => Raise e
             end)
     /\ returned (events_sum (pointwise Qcmax) [(-1)%Z])
                 calculator_with_two_events = Ok event
     /\ returned (events_intersection (pointwise Qcmin) [(-1)%Z])
                 calculator_with_two_events = Ok event)
  /\ (returned (events_sum (pointwise Qcmax) [0%Z; (-3)%Z])
               calculator_with_two_events
      = Raise (IndexError "list index out of range")
      /\ returned (events_intersection (pointwise Qcmin) [0%Z; (-3)%Z])
                  calculator_with_two_events
         = Raise (IndexError "list index out of range")).
Proof.
  split.
  - apply (proj1 (negative_index_counts_from_end
                    (pointwise Qcmax) (pointwise Qcmin)
                    calculator_with_two_events (-1))).
    vm_compute. split; discriminate.
  - apply (proj2 (negative_index_counts_from_end
                    (pointwise Qcmax) (pointwise Qcmin)
                    calculator_with_two_events (-3))).
    + reflexivity.
    + simpl. auto.
Defined.

(** * Further properties of the code *)

(** ** [utils.py] *)

Lemma Qcabs_zero : Qcabs 0 = 0.
Proof. apply Qcabs_pos. apply Qcle_refl. Qed.

Lemma Qcmult_nonneg (x y : Qc) : 0 <= x -> 0 <= y -> 0 <= x * y.
Proof.
  intros Hx Hy. replace 0 with (0 * y) by ring.
  now apply Qcmult_le_compat_r.
Qed.

Lemma Qcmult_le_1 (x y : Qc) : x <= 1 -> 0 <= y -> x * y <= y.
Proof.
  intros Hx Hy. replace y with (1 * y) at 2 by ring.
  now apply Qcmult_le_compat_r.
Qed.

Lemma not_approximately_zero_positive (t : Qc) :
  0 <= t -> ~ approximately t 0 -> np.atol < t.
Proof.
  intros Ht Hz. apply Qcnot_le_lt. intros Hle. apply Hz.
  unfold approximately. rewrite Qcabs_zero.
  replace (t - 0) with t by ring. rewrite (Qcabs_pos t Ht).
  replace (np.atol + np.rtol * 0) with np.atol by ring. exact Hle.
Qed.

Lemma atol_positive : 0 < np.atol.
Proof. vm_compute. reflexivity. Qed.

Lemma member_le_sum (a : ndarray) (x : Qc) :
  nonnegative a -> In x a -> x <= np.sum a.
Proof.
  induction 1 as [|p a Hp Ha IH]; intros Hin; simpl in *; [tauto|].
  destruct Hin as [->|Hin].
  - replace x with (x + 0) at 1 by ring.
    apply Qcplus_le_compat; [apply Qcle_refl|now apply sum_nonneg].
  - apply Qcle_plus_nonneg; auto.
Qed.

Lemma range_nonnegative (a : ndarray) :
  Forall (fun p => 0 <= p <= 1) a -> nonnegative a.
Proof. apply Forall_impl. tauto. Qed.

Lemma normalize_probabilities_range (probabilities : ndarray) :
  nonnegative probabilities -> 0 < np.sum probabilities ->
  Forall (fun p => 0 <= p <= 1) (utils.normalize_probabilities probabilities).
Proof.
  intros Hnn Hpos. unfold utils.normalize_probabilities, np.div.
  rewrite Forall_map, Forall_forall. intros p Hp.
  assert (Hs : 0 <= np.sum probabilities) by now apply Qclt_le_weak.
  split.
  - apply Qcdiv_nonneg; [|assumption].
    unfold nonnegative in Hnn. rewrite Forall_forall in Hnn. auto.
  - unfold Qcdiv.
    replace 1 with (np.sum probabilities * / np.sum probabilities).
    + apply Qcmult_le_compat_r; [now apply member_le_sum|].
      now apply Qcinv_nonneg.
    + apply Qcmult_inv_r. intros E. rewrite E in Hpos.
      exact (Qclt_irrefl _ Hpos).
Qed.

(** X1. [universe_diverse] returns true exactly for a universe whose
    elements are pairwise distinct. *)
Theorem universe_diverse_iff_distinct (universe : ndarray) :
  utils.universe_diverse universe = true <-> NoDup universe.
Proof. apply universe_diverse_NoDup. Qed.

Lemma valid_sum_above_tolerance (probabilities : ndarray) :
  utils.probabilities_valid probabilities = true ->
  np.atol < np.sum probabilities /\ 0 < np.sum probabilities.
Proof.
  intros Hv. apply probabilities_valid_iff in Hv as [Hrange Hz].
  assert (Hpos : np.atol < np.sum probabilities).
  { apply not_approximately_zero_positive; [|assumption].
    now apply sum_nonneg, range_nonnegative. }
  split; [exact Hpos|].
  eapply Qclt_trans; [exact atol_positive|exact Hpos].
Qed.

(** X2. A distribution accepted by [probabilities_valid] is not empty and
    its sum is strictly above the absolute tolerance of [np.isclose], so the
    division in [normalize_probabilities] is by a positive number. *)
Theorem valid_probabilities_have_positive_sum (probabilities : ndarray) :
  utils.probabilities_valid probabilities = true ->
  probabilities <> []
  /\ np.atol < np.sum probabilities
  /\ 0 < np.sum probabilities.
Proof.
  intros Hv. apply probabilities_valid_iff in Hv as [Hrange Hz].
  assert (Hpos : np.atol < np.sum probabilities).
  { apply not_approximately_zero_positive; [|assumption].
    now apply sum_nonneg, range_nonnegative. }
  repeat split.
  - intros ->. apply Hz. exact approximately_zero_zero.
  - exact Hpos.
  - eapply Qclt_trans; [exact atol_positive|exact Hpos].
Qed.

Lemma valid_probabilities_have_positive_sum_witness :
  heavy_probabilities <> []
  /\ np.atol < np.sum heavy_probabilities
  /\ 0 < np.sum heavy_probabilities.
Proof.
  apply (valid_probabilities_have_positive_sum heavy_probabilities).
  vm_compute. reflexivity.
Defined.

Lemma normalize_probabilities_checks (probabilities : ndarray) :
  utils.probabilities_valid probabilities = true ->
  let normalized := utils.normalize_probabilities probabilities in
  length normalized = length probabilities
  /\ Forall (fun p => 0 <= p <= 1) normalized
  /\ np.sum normalized = 1
  /\ utils.probabilities_valid normalized = true
  /\ utils.probabilities_normalized normalized = true.
Proof.
  intros Hv normalized.
  destruct (valid_sum_above_tolerance _ Hv) as [_ Hpos].
  apply probabilities_valid_iff in Hv as [Hrange _].
  assert (Hnn : nonnegative probabilities) by now apply range_nonnegative.
  assert (Hr : Forall (fun p => 0 <= p <= 1) normalized)
    by now apply normalize_probabilities_range.
  assert (Hsum : np.sum normalized = 1).
  { apply normalize_probabilities_sum. intros E. rewrite E in Hpos.
    exact (Qclt_irrefl _ Hpos). }
  split; [apply length_map|].
  split; [exact Hr|].
  split; [exact Hsum|].
  split.
  - apply probabilities_valid_iff. split; [exact Hr|].
    rewrite Hsum. intros H. vm_compute in H. apply H. reflexivity.
  - unfold utils.probabilities_normalized. rewrite Hsum.
    vm_compute. reflexivity.
Qed.

(** X3. Normalising a valid distribution gives a distribution of the same
    length that passes both checks of the constructor: every value is in
    [0,1], the sum is exactly 1, [probabilities_valid] and
    [probabilities_normalized] hold. *)
Theorem normalize_probabilities_valid_and_normalized (probabilities : ndarray) :
  utils.probabilities_valid probabilities = true ->
  let normalized := utils.normalize_probabilities probabilities in
  length normalized = length probabilities
  /\ Forall (fun p => 0 <= p <= 1) normalized
  /\ np.sum normalized = 1
  /\ utils.probabilities_valid normalized = true
  /\ utils.probabilities_normalized normalized = true.
Proof. exact (normalize_probabilities_checks probabilities). Qed.

Lemma normalize_probabilities_valid_and_normalized_witness :
  let normalized := utils.normalize_probabilities heavy_probabilities in
  length normalized = length heavy_probabilities
  /\ Forall (fun p => 0 <= p <= 1) normalized
  /\ np.sum normalized = 1
  /\ utils.probabilities_valid normalized = true
  /\ utils.probabilities_normalized normalized = true.
Proof.
  apply (normalize_probabilities_valid_and_normalized heavy_probabilities).
  vm_compute. reflexivity.
Defined.

(** X4. [normalize_probabilities] does not depend on the scale of its
    input: multiplying every weight by the same non-zero factor gives the
    same normalised distribution. *)
Theorem normalize_probabilities_scale_invariant
  (probabilities : ndarray) (c : Qc) :
  c <> 0 -> np.sum probabilities <> 0 ->
  utils.normalize_probabilities (map (fun p => c * p) probabilities)
  = utils.normalize_probabilities probabilities.
Proof.
  intros Hc Hs. unfold utils.normalize_probabilities, np.div.
  assert (Hsum : np.sum (map (fun p => c * p) probabilities)
                 = c * np.sum probabilities).
  { clear. induction probabilities as [|p l IH]; simpl; [ring|].
    rewrite IH. ring. }
  rewrite Hsum, map_map. apply map_ext. intros p. field. auto.
Qed.

Lemma normalize_probabilities_scale_invariant_witness :
  utils.normalize_probabilities (map (fun p => qc 12 10 * p) docstring_probabilities)
  = utils.normalize_probabilities docstring_probabilities.
Proof.
  apply (normalize_probabilities_scale_invariant docstring_probabilities (qc 12 10)).
  - intros H. apply (f_equal this) in H. vm_compute in H. discriminate.
  - intros H. apply (f_equal this) in H. vm_compute in H. discriminate.
Defined.

(** ** Construction *)

(** X5. The constructor checks the universe first: a universe with a
    repeated element is refused with the universe error whatever the
    distribution and the flag are; with a universe of distinct elements, a
    distribution with a value outside [0,1] or a sum approximately 0 is
    refused with the distribution error, whatever the flag is. *)
Theorem constructor_error_order
  (universe probabilities : ndarray) (normalize : bool) :
  (~ NoDup universe ->
   __init__ universe probabilities normalize
   = Raise (ValueError "Every elementary event should be different"))
  /\ (NoDup universe ->
      ~ (Forall (fun p => 0 <= p <= 1) probabilities
         /\ ~ approximately (np.sum probabilities) 0) ->
      __init__ universe probabilities normalize
      = Raise (ValueError
          "All probabilities should be in [0,1] interval and their sum cannot be zero")).
Proof.
  unfold __init__. split.
  - intros Hdup.
    destruct (utils.universe_diverse universe) eqn:E; [|reflexivity].
    apply universe_diverse_NoDup in E. contradiction.
  - intros Hu Hbad.
    rewrite (proj2 (universe_diverse_NoDup universe) Hu). simpl.
    destruct (utils.probabilities_valid probabilities) eqn:E; [|reflexivity].
    apply probabilities_valid_iff in E. contradiction.
Qed.

Lemma constructor_error_order_witness :
  __init__ [Z2Qc 1; Z2Qc 1] [Z2Qc 2] true
  = Raise (ValueError "Every elementary event should be different")
  /\ __init__ docstring_universe [Z2Qc 2] true
     = Raise (ValueError
         "All probabilities should be in [0,1] interval and their sum cannot be zero").
Proof.
  split.
  - apply (proj1 (constructor_error_order [Z2Qc 1; Z2Qc 1] [Z2Qc 2] true)).
    intros H. apply universe_diverse_NoDup in H. vm_compute in H. discriminate.
  - apply (proj2 (constructor_error_order docstring_universe [Z2Qc 2] true)).
    + apply universe_diverse_NoDup. vm_compute. reflexivity.
    + intros [H _]. inversion H as [|? ? [_ Hle] _]; subst.
      vm_compute in Hle. apply Hle. reflexivity.
Defined.

(** X6. A valid distribution whose sum is approximately 1 is stored as it
    is, with or without [normalize]: the flag never rescales a distribution
    that already passes the tolerance test. *)
Theorem constructor_keeps_normalized_distribution
  (universe probabilities : ndarray) (normalize : bool) :
  NoDup universe ->
  utils.probabilities_valid probabilities = true ->
  approximately (np.sum probabilities) 1 ->
  __init__ universe probabilities normalize
  = Ok {| _probabilities := probabilities; _universe := universe;
          _events := []; _combined_events := [] |}.
Proof.
  intros Hu Hv Hone. unfold __init__.
  rewrite (proj2 (universe_diverse_NoDup universe) Hu), Hv.
  unfold utils.probabilities_normalized.
  rewrite (proj2 (isclose_approximately _ _) Hone). reflexivity.
Qed.

Lemma constructor_keeps_normalized_distribution_witness :
  __init__ docstring_universe [qc 3 10; qc 4 10; qc 300001 1000000] true
  = Ok {| _probabilities := [qc 3 10; qc 4 10; qc 300001 1000000];
          _universe := docstring_universe;
          _events := []; _combined_events := [] |}.
Proof.
  apply (constructor_keeps_normalized_distribution docstring_universe
           [qc 3 10; qc 4 10; qc 300001 1000000] true).
  - apply universe_diverse_NoDup. vm_compute. reflexivity.
  - vm_compute. reflexivity.
  - vm_compute. discriminate.
Defined.

(** X7. Whatever the constructor accepts, the calculator it returns holds a
    universe of distinct elements, no event, and a distribution of the
    input's length that passes both checks; constructing again from the
    stored universe and distribution, without [normalize], succeeds and
    gives the same calculator. *)
Theorem constructor_result_is_stable
  (universe probabilities : ndarray) (normalize : bool)
  (self : FuzzyProbabilitiesCalculator) :
  __init__ universe probabilities normalize = Ok self ->
  NoDup (_universe self)
  /\ _events self = []
  /\ length (_probabilities self) = length probabilities
  /\ utils.probabilities_valid (_probabilities self) = true
  /\ utils.probabilities_normalized (_probabilities self) = true
  /\ __init__ (_universe self) (_probabilities self) false = Ok self.
Proof.
  unfold __init__.
  destruct (utils.universe_diverse universe) eqn:Eu; simpl; [|discriminate].
  destruct (utils.probabilities_valid probabilities) eqn:Ev; simpl;
    [|discriminate].
  destruct (utils.probabilities_normalized probabilities) eqn:En; simpl.
  - intros [= <-]. simpl. rewrite Eu, Ev, En. simpl.
    repeat split. now apply universe_diverse_NoDup.
  - destruct normalize; simpl; [|discriminate].
    intros [= <-]. simpl.
    destruct (normalize_probabilities_checks _ Ev)
      as (Hlen & _ & _ & Hv & Hn).
    rewrite Eu, Hv, Hn. simpl.
    repeat split; [now apply universe_diverse_NoDup|exact Hlen].
Qed.

Lemma constructor_result_is_stable_witness :
  exists self,
    __init__ docstring_universe heavy_probabilities true = Ok self
    /\ NoDup (_universe self)
    /\ _events self = []
    /\ length (_probabilities self) = length heavy_probabilities
    /\ utils.probabilities_valid (_probabilities self) = true
    /\ utils.probabilities_normalized (_probabilities self) = true
    /\ __init__ (_universe self) (_probabilities self) false = Ok self.
Proof.
  eexists. split; [reflexivity|].
  apply (constructor_result_is_stable docstring_universe heavy_probabilities true).
  reflexivity.
Defined.

(** ** Length normalisation and registration *)

Lemma nth_length_normalize (N i : nat) (event : ndarray) :
  nth i (length_normalize N event) 0
  = if (i <? N)%nat then nth i event 0 else 0.
Proof.
  unfold length_normalize.
  destruct (Nat.ltb_spec (length event) N) as [HL|HL].
  - destruct (Nat.lt_ge_cases i (length event)) as [Hi|Hi].
    + rewrite app_nth1 by assumption.
      destruct (Nat.ltb_spec i N); [reflexivity|lia].
    + rewrite app_nth2 by assumption. rewrite nth_repeat.
      rewrite nth_overflow by assumption. now destruct (i <? N)%nat.
  - destruct (Nat.ltb_spec N (length event)) as [HN|HN].
    + apply nth_firstn.
    + destruct (Nat.ltb_spec i N); [reflexivity|].
      apply nth_overflow. lia.
Qed.

(** X8. [_normalized_event] always returns an array of the universe's
    length N whose element at every index below N is the element of the
    event there, or 0 where the event has none; normalising the result again
    changes nothing. *)
Theorem normalized_event_elements
  (self : FuzzyProbabilitiesCalculator) (event : ndarray) :
  exists normalized,
    _normalized_event event self = (Ok normalized, self)
    /\ length normalized = length (_universe self)
    /\ (forall i, (i < length (_universe self))%nat ->
                  nth i normalized 0 = nth i event 0)
    /\ (forall i, (length event <= i)%nat -> nth i normalized 0 = 0)
    /\ _normalized_event normalized self = (Ok normalized, self).
Proof.
  exists (length_normalize (length (_universe self)) event).
  split; [apply _normalized_event_run|].
  split; [apply length_normalize_length|].
  split; [|split].
  - intros i Hi. rewrite nth_length_normalize.
    destruct (Nat.ltb_spec i (length (_universe self))); [reflexivity|lia].
  - intros i Hi. rewrite nth_length_normalize.
    rewrite (nth_overflow event 0 Hi).
    now destruct (i <? length (_universe self))%nat.
  - rewrite _normalized_event_run.
    rewrite length_normalize_same; [reflexivity|].
    apply length_normalize_length.
Qed.

Lemma add_events_run (memberships : list ndarray)
  (self : FuzzyProbabilitiesCalculator) :
  add_events memberships self
  = (Ok (map Z.of_nat (seq (length (_events self)) (length memberships))),
     {| _probabilities := _probabilities self;
        _universe := _universe self;
        _events := _events self
                   ++ map (length_normalize (length (_universe self)))
                          memberships;
        _combined_events := _combined_events self |}).
Proof.
  unfold add_events. revert self.
  induction memberships as [|m ms IH]; intros self; simpl.
  - unfold ret. rewrite app_nil_r. now destruct self.
  - unfold bind at 1. rewrite add_event_run.
    unfold bind at 1. rewrite IH. simpl. unfold ret, len.
    rewrite length_app, <- app_assoc. simpl.
    replace (length (_events self) + 1)%nat with (S (length (_events self)))
      by lia.
    reflexivity.
Qed.

(** X9. Registering events one after the other returns consecutive indices
    starting at the number of events already stored, appends the
    length-normalised events in call order behind the stored ones, which
    stay where they were, and leaves universe and distribution alone; every
    appended event has the universe's length. *)
Theorem add_events_appends_in_order
  (self : FuzzyProbabilitiesCalculator) (memberships : list ndarray) :
  let N := length (_universe self) in
  let after := state_after (add_events memberships) self in
  returned (add_events memberships) self
  = Ok (map Z.of_nat (seq (length (_events self)) (length memberships)))
  /\ _events after = _events self ++ map (length_normalize N) memberships
  /\ Forall (fun event => length event = N)
            (map (length_normalize N) memberships)
  /\ (forall i, (i < length (_events self))%nat ->
                nth_error (_events after) i = nth_error (_events self) i)
  /\ _universe after = _universe self
  /\ _probabilities after = _probabilities self.
Proof.
  intros N after. unfold after, returned, state_after.
  rewrite add_events_run. simpl. fold N.
  repeat split.
  - rewrite Forall_map, Forall_forall. intros m _.
    apply length_normalize_length.
  - intros i Hi. now apply nth_error_app1.
Qed.

(** X10. The index [add_event] returns retrieves the event just stored:
    looking it up in the list of events, or passing it alone to [events_sum]
    or [events_intersection], gives the length-normalised membership, with
    no call of the library operation. *)
Theorem add_event_then_lookup
  (fuzzy_add fuzzy_and : fuzzy_op) (self : FuzzyProbabilitiesCalculator)
  (membership : ndarray) :
  let stored := length_normalize (length (_universe self)) membership in
  let after := state_after (add_event membership) self in
  exists idx,
    returned (add_event membership) self = Ok idx
    /\ idx = len (_events self)
    /\ py_getitem (_events after) idx = Ok stored
    /\ returned (events_sum fuzzy_add [idx]) after = Ok stored
    /\ returned (events_intersection fuzzy_and [idx]) after = Ok stored.
Proof.
  intros stored after. exists (len (_events self)).
  unfold after, state_after, returned at 1. rewrite add_event_run.
  cbn [fst snd]. fold stored.
  set (self' := {| _probabilities := _probabilities self;
                   _universe := _universe self;
                   _events := _events self ++ [stored];
                   _combined_events := _combined_events self |}).
  assert (Hget : py_getitem (_events self') (len (_events self)) = Ok stored).
  { unfold py_getitem, len. simpl.
    destruct (Z.ltb_spec (Z.of_nat (length (_events self))) 0); [lia|].
    destruct (Z.ltb_spec (Z.of_nat (length (_events self))) 0); [lia|].
    rewrite Nat2Z.id, nth_error_app2 by lia.
    now rewrite Nat.sub_diag. }
  assert (Hlt : (len (_events self) < len (_events self'))%Z).
  { unfold len. simpl. rewrite length_app. simpl. lia. }
  split; [reflexivity|]. split; [reflexivity|]. split; [exact Hget|].
  unfold events_sum, events_intersection.
  rewrite !combine_events_run.
  rewrite (select_events_cons_kept _ _ [] stored Hlt Hget). simpl.
  split; reflexivity.
Qed.

(** ** Combination of registered events, in range *)

Lemma select_events_nonnegative (events : list ndarray) (events_indices : list Z) :
  (forall idx, In idx events_indices -> (0 <= idx)%Z) ->
  select_events events events_indices
  = Ok (map (fun idx => nth (Z.to_nat idx) events [])
            (kept_indices events events_indices)).
Proof.
  unfold kept_indices.
  induction events_indices as [|idx rest IH]; intros Hnn; simpl;
    [reflexivity|].
  destruct (Z.ltb_spec idx (len events)) as [Hlt|Hge].
  - destruct (py_getitem_in_range events idx) as (event & Hnth & Hget).
    { split; [apply Hnn; now left|assumption]. }
    rewrite Hget, IH by (intros; apply Hnn; now right). simpl.
    now rewrite (nth_error_nth events (Z.to_nat idx) [] Hnth).
  - apply IH. intros; apply Hnn; now right.
Qed.

Lemma combine_events_fold (op : fuzzy_op) (self : FuzzyProbabilitiesCalculator)
  (events_indices : list Z) (first : ndarray) (rest : list ndarray) :
  select_events (_events self) events_indices = Ok (first :: rest) ->
  returned (combine_events op events_indices) self
  = combine_loop op (_universe self) first rest.
Proof.
  intros Hsel. destruct events_indices as [|idx idxs]; [discriminate|].
  rewrite combine_events_run, Hsel.
  destruct rest as [|second rest]; reflexivity || idtac.
  unfold len. simpl length.
  destruct (Z.eqb_spec (Z.of_nat (S (S (length rest)))) 1); [lia|].
  reflexivity.
Qed.

Lemma fold_left_raised (op : fuzzy_op) (universe : ndarray)
  (rest : list ndarray) (e : exception) :
  fold_left
    (fun acc event =>
       match acc with
       | Raise e => Raise e
       | Ok mf =>
           match op universe mf universe event with
           | Ok zmf => Ok (snd zmf)
           | Raise e => Raise e
           end
       end)
    rest (Raise e) = Raise e.
Proof. induction rest as [|event rest IH]; simpl; auto. Qed.

Lemma combine_loop_folded_left (op : fuzzy_op) (universe first : ndarray)
  (rest : list ndarray) :
  combine_loop op universe first rest = folded_left op universe first rest.
Proof.
  unfold folded_left. revert first.
  induction rest as [|event rest IH]; intros first; simpl; [reflexivity|].
  destruct (op universe first universe event) as [[z mfz]|e]; simpl.
  - apply IH.
  - symmetry. apply fold_left_raised.
Qed.

(** X11. When no index is negative and at least one is below the number of
    registered events, [events_sum] and [events_intersection] ignore the
    indices at or above that number and fold the library operation, left to
    right over the universe, through the events at the remaining indices in
    the order given: the first of them starts the fold, each further one is
    combined with the membership obtained so far, and an exception of the
    operation ends the call; a single remaining event is returned as
    stored. *)
Theorem combination_folds_kept_indices
  (fuzzy_add fuzzy_and : fuzzy_op) (self : FuzzyProbabilitiesCalculator)
  (events_indices : list Z) (first : ndarray) (rest : list ndarray) :
  (forall idx, In idx events_indices -> (0 <= idx)%Z) ->
  map (fun idx => nth (Z.to_nat idx) (_events self) [])
      (kept_indices (_events self) events_indices) = first :: rest ->
  returned (events_sum fuzzy_add events_indices) self
  = folded_left fuzzy_add (_universe self) first rest
  /\ returned (events_intersection fuzzy_and events_indices) self
     = folded_left fuzzy_and (_universe self) first rest.
Proof.
  intros Hnn Hkept.
  pose proof (select_events_nonnegative (_events self) events_indices Hnn)
    as Hsel.
  rewrite Hkept in Hsel.
  unfold events_sum, events_intersection.
  rewrite <- !combine_loop_folded_left.
  split; now apply combine_events_fold.
Qed.

Lemma combination_folds_kept_indices_witness :
  returned (events_sum (pointwise Qcmax) [1%Z; 7%Z; 0%Z])
           calculator_with_two_events
  = folded_left (pointwise Qcmax) docstring_universe event2 [event1]
  /\ returned (events_intersection (pointwise Qcmin) [1%Z; 7%Z; 0%Z])
              calculator_with_two_events
     = folded_left (pointwise Qcmin) docstring_universe event2 [event1].
Proof.
  apply (combination_folds_kept_indices (pointwise Qcmax) (pointwise Qcmin)
           calculator_with_two_events [1%Z; 7%Z; 0%Z] event2 [event1]).
  - intros idx [<-|[<-|[<-|[]]]]; lia.
  - reflexivity.
Defined.

(** X12. After registering two events of the universe's length on a
    calculator without events, the indices are 0 and 1, [events_sum(0, 1)]
    is the membership returned by the library's [fuzzy_add] on the universe
    and the two events as passed, and [events_intersection(0, 1)] that of
    [fuzzy_and], as the repository's tests expect. *)
Theorem combination_of_two_registered_events
  (fuzzy_add fuzzy_and : fuzzy_op) (self : FuzzyProbabilitiesCalculator)
  (first second : ndarray) :
  _events self = [] ->
  length first = length (_universe self) ->
  length second = length (_universe self) ->
  let after := state_after (add_events [first; second]) self in
  returned (add_events [first; second]) self = Ok [0%Z; 1%Z]
  /\ _events after = [first; second]
  /\ returned (events_sum fuzzy_add [0%Z; 1%Z]) after
     = match fuzzy_add (_universe self) first (_universe self) second with
       | Ok (_, mfz) => Ok mfz
       | Raise e => Raise e
       end
  /\ returned (events_intersection fuzzy_and [0%Z; 1%Z]) after
     = match fuzzy_and (_universe self) first (_universe self) second with
       | Ok (_, mfz) => Ok mfz
       | Raise e => Raise e
       end.
Proof.
  intros Hnone Hfirst Hsecond after.
  unfold after, returned at 1, state_after. rewrite add_events_run.
  cbn [fst snd]. rewrite Hnone. cbn [length app map seq].
  rewrite !length_normalize_same by assumption.
  split; [reflexivity|]. split; [reflexivity|].
  unfold events_sum, events_intersection.
  split.
  - rewrite (combine_events_fold fuzzy_add _ _ first [second]);
      [|reflexivity].
    cbn [combine_loop _universe].
    destruct (fuzzy_add _ _ _ _) as [[z mfz]|e]; reflexivity.
  - rewrite (combine_events_fold fuzzy_and _ _ first [second]);
      [|reflexivity].
    cbn [combine_loop _universe].
    destruct (fuzzy_and _ _ _ _) as [[z mfz]|e]; reflexivity.
Qed.

Lemma combination_of_two_registered_events_witness :
  let after := state_after (add_events [event1; event2]) docstring_calculator in
  returned (add_events [event1; event2]) docstring_calculator = Ok [0%Z; 1%Z]
  /\ _events after = [event1; event2]
  /\ returned (events_sum (pointwise Qcmax) [0%Z; 1%Z]) after
     = match pointwise Qcmax docstring_universe event1 docstring_universe event2 with
       | Ok (_, mfz) => Ok mfz
       | Raise e => Raise e
       end
  /\ returned (events_intersection (pointwise Qcmin) [0%Z; 1%Z]) after
     = match pointwise Qcmin docstring_universe event1 docstring_universe event2 with
       | Ok (_, mfz) => Ok mfz
       | Raise e => Raise e
       end.
Proof.
  apply (combination_of_two_registered_events (pointwise Qcmax) (pointwise Qcmin)
           docstring_calculator event1 event2); reflexivity.
Defined.

(** ** The probability of an event *)

Lemma dot_aligned_monotone (a a' b : ndarray) :
  Forall2 Qcle a a' -> nonnegative b ->
  np.dot_aligned a b <= np.dot_aligned a' b.
Proof.
  intros Hle. revert b.
  induction Hle as [|x x' a a' Hx _ IH]; intros [|y b] Hnn; simpl;
    try apply Qcle_refl.
  inversion Hnn; subst.
  apply Qcplus_le_compat; [now apply Qcmult_le_compat_r|now apply IH].
Qed.

Lemma dot_aligned_ones (b : ndarray) :
  np.dot_aligned (repeat 1 (length b)) b = np.sum b.
Proof. induction b as [|y b IH]; simpl; [reflexivity|]. rewrite IH. ring. Qed.

Lemma dot_aligned_zeros (n : nat) (b : ndarray) :
  np.dot_aligned (repeat 0 n) b = 0.
Proof.
  revert b. induction n as [|n IH]; intros [|y b]; simpl; try reflexivity.
  rewrite IH. ring.
Qed.

Lemma Forall2_zeros_le (a : ndarray) :
  Forall (fun m => 0 <= m <= 1) a -> Forall2 Qcle (repeat 0 (length a)) a.
Proof. induction 1; simpl; constructor; tauto. Qed.

Lemma Forall2_le_ones (a : ndarray) :
  Forall (fun m => 0 <= m <= 1) a -> Forall2 Qcle a (repeat 1 (length a)).
Proof. induction 1; simpl; constructor; tauto. Qed.

(** X13. [probability] raises the shape error of [np.dot] exactly when the
    length of the event as passed differs from the length of the stored
    distribution, and returns a number otherwise: the universe's length
    plays no part in it. *)
Theorem probability_fails_iff_lengths_differ
  (self : FuzzyProbabilitiesCalculator) (event : ndarray) :
  (returned (probability event) self = Raise (ValueError "shapes not aligned")
   <-> length event <> length (_probabilities self))
  /\ (is_ok (returned (probability event) self) = true
      <-> length event = length (_probabilities self)).
Proof.
  unfold returned. rewrite probability_run. simpl. unfold np.dot.
  destruct (Nat.eqb_spec (length event) (length (_probabilities self)));
    simpl; split; split; intros; congruence.
Qed.

(** X14. With a distribution without negative values, [probability] is
    monotone in the event: raising memberships pointwise never lowers the
    probability. *)
Theorem probability_monotone
  (self : FuzzyProbabilitiesCalculator) (event event' : ndarray) :
  nonnegative (_probabilities self) ->
  length event = length (_probabilities self) ->
  Forall2 Qcle event event' ->
  exists p p',
    returned (probability event) self = Ok p
    /\ returned (probability event') self = Ok p'
    /\ p <= p'.
Proof.
  intros Hnn Hlen Hle.
  assert (Hlen' : length event' = length (_probabilities self))
    by (rewrite <- Hlen; symmetry; eapply Forall2_length; eassumption).
  exists (np.dot_aligned event (_probabilities self)),
         (np.dot_aligned event' (_probabilities self)).
  unfold returned. rewrite !probability_run. simpl. unfold np.dot.
  rewrite Hlen, Hlen', Nat.eqb_refl.
  repeat split. now apply dot_aligned_monotone.
Qed.

Lemma probability_monotone_witness :
  exists p p',
    returned (probability event1) docstring_calculator = Ok p
    /\ returned (probability [qc 2 10; qc 6 10; qc 3 10]) docstring_calculator
       = Ok p'
    /\ p <= p'.
Proof.
  apply (probability_monotone docstring_calculator event1
           [qc 2 10; qc 6 10; qc 3 10]).
  - repeat constructor; vm_compute; discriminate.
  - reflexivity.
  - repeat constructor; vm_compute; discriminate.
Defined.

(** X15. On a calculator whose distribution has no negative value, the
    probability of an event of the distribution's length with memberships
    in [0,1] lies between 0 and the sum of the distribution; the all-zero
    event has probability 0 and the all-one event the sum of the
    distribution. *)
Theorem probability_bounds
  (self : FuzzyProbabilitiesCalculator) (event : ndarray) :
  nonnegative (_probabilities self) ->
  length event = length (_probabilities self) ->
  Forall (fun m => 0 <= m <= 1) event ->
  exists p,
    returned (probability event) self = Ok p
    /\ 0 <= p <= np.sum (_probabilities self)
    /\ returned (probability (repeat 0 (length event))) self = Ok 0
    /\ returned (probability (repeat 1 (length event))) self
       = Ok (np.sum (_probabilities self)).
Proof.
  intros Hnn Hlen Hrange.
  exists (np.dot_aligned event (_probabilities self)).
  unfold returned. rewrite !probability_run. simpl. unfold np.dot.
  rewrite !repeat_length, Hlen, Nat.eqb_refl.
  rewrite dot_aligned_ones, dot_aligned_zeros.
  repeat split.
  - rewrite <- (dot_aligned_zeros (length event) (_probabilities self)).
    apply dot_aligned_monotone; [now apply Forall2_zeros_le|assumption].
  - rewrite <- (dot_aligned_ones (_probabilities self)), <- Hlen.
    apply dot_aligned_monotone; [now apply Forall2_le_ones|assumption].
Qed.

Lemma probability_bounds_witness :
  exists p,
    returned (probability event1) docstring_calculator = Ok p
    /\ 0 <= p <= np.sum docstring_probabilities
    /\ returned (probability (repeat 0 3)) docstring_calculator = Ok 0
    /\ returned (probability (repeat 1 3)) docstring_calculator
       = Ok (np.sum docstring_probabilities).
Proof.
  apply (probability_bounds docstring_calculator event1).
  - repeat constructor; vm_compute; discriminate.
  - reflexivity.
  - repeat constructor; vm_compute; discriminate.
Defined.

(** ** Alpha cuts, continued *)

Lemma alpha_cut_mass_bounds (membership distribution : ndarray) (a : Qc) :
  nonnegative distribution ->
  0 <= alpha_cut_mass membership distribution a <= np.sum distribution.
Proof.
  intros Hnn. revert membership. unfold alpha_cut_mass.
  induction Hnn as [|p distribution Hp Hnn IH]; intros [|m membership];
    simpl; try (split; apply Qcle_refl).
  - split; [apply Qcle_refl|].
    apply Qcle_plus_nonneg; [assumption|now apply sum_nonneg].
  - destruct (IH membership) as [Hlo Hhi].
    destruct (Qcleb a m); simpl.
    + split.
      * replace 0 with (0 + 0) by ring. now apply Qcplus_le_compat.
      * apply Qcplus_le_compat; [apply Qcle_refl|assumption].
    + split; [assumption|now apply Qcle_plus_nonneg].
Qed.

Lemma unique_length (a : ndarray) : (length (np.unique a) <= length a)%nat.
Proof.
  apply NoDup_incl_length.
  - apply sorted_NoDup, unique_sorted.
  - intros x. apply unique_In.
Qed.

Lemma trim_zeros_length (a : ndarray) :
  (length (np.trim_zeros a) <= length a)%nat.
Proof.
  unfold np.trim_zeros, py_slice. rewrite length_firstn, length_skipn. lia.
Qed.

(** The alpha levels of an array without negative values. *)
Lemma alpha_levels_nonnegative (normalized : ndarray) (a : Qc) :
  Forall (fun m => 0 <= m) normalized ->
  In a (np.trim_zeros (np.unique normalized)) <-> In a normalized /\ a <> 0.
Proof.
  intros Hnn. split.
  - intros Hin.
    assert (Hmem : In a normalized)
      by (apply unique_In; now apply trim_zeros_incl).
    split; [assumption|]. intros ->.
    apply trim_zeros_zero_inside in Hin as [[x [Hx Hneg]] _];
      [|apply unique_sorted].
    apply (proj1 (unique_In x normalized)) in Hx.
    rewrite Forall_forall in Hnn.
    exact (Qcle_not_lt _ _ (Hnn x Hx) Hneg).
  - intros [Hin Ha]. apply trim_zeros_keeps_nonzero; [|assumption].
    now apply unique_In.
Qed.

(** X16. On a calculator whose distribution has the universe's length and
    no negative value, [fuzzy_probability] returns at most as many alpha
    levels as the universe has elements, every level is a membership of the
    normalised event, and every probability lies between 0 and the sum of
    the distribution. *)
Theorem fuzzy_probability_bounds
  (self : FuzzyProbabilitiesCalculator) (event : ndarray) :
  aligned self -> nonnegative (_probabilities self) ->
  exists probs alphas,
    returned (fuzzy_probability event) self = Ok (probs, alphas)
    /\ (length alphas <= length (_universe self))%nat
    /\ Forall (fun a =>
                 In a (length_normalize (length (_universe self)) event))
              alphas
    /\ Forall (fun p => 0 <= p <= np.sum (_probabilities self)) probs.
Proof.
  intros Hal Hnn.
  set (normalized := length_normalize (length (_universe self)) event).
  set (alphas := np.trim_zeros (np.unique normalized)).
  exists (map (alpha_cut_mass normalized (_probabilities self)) alphas), alphas.
  unfold returned. rewrite fuzzy_probability_run by assumption.
  split; [reflexivity|]. split; [|split].
  - unfold alphas.
    eapply Nat.le_trans; [apply trim_zeros_length|].
    eapply Nat.le_trans; [apply unique_length|].
    unfold normalized. now rewrite length_normalize_length.
  - rewrite Forall_forall. intros a Ha.
    apply unique_In. now apply trim_zeros_incl.
  - rewrite Forall_map, Forall_forall. intros a _.
    now apply alpha_cut_mass_bounds.
Qed.

Lemma fuzzy_probability_bounds_witness :
  exists probs alphas,
    returned (fuzzy_probability long_event) docstring_calculator
    = Ok (probs, alphas)
    /\ (length alphas <= 3)%nat
    /\ Forall (fun a => In a (length_normalize 3 long_event)) alphas
    /\ Forall (fun p => 0 <= p <= np.sum docstring_probabilities) probs.
Proof.
  apply (fuzzy_probability_bounds docstring_calculator long_event).
  - reflexivity.
  - repeat constructor; vm_compute; discriminate.
Defined.

Lemma sorted_singleton (l : ndarray) (x : Qc) :
  StronglySorted Qclt l -> (forall a, In a l <-> a = x) -> l = [x].
Proof.
  intros Hs Hall. destruct l as [|y t].
  - exfalso. now apply (proj2 (Hall x)).
  - assert (y = x) by (apply Hall; now left). subst y.
    destruct t as [|z t]; [reflexivity|].
    assert (z = x) by (apply Hall; right; now left). subst z.
    inversion Hs as [|? ? _ Hx]; subst. inversion Hx; subst.
    exfalso. eapply Qclt_irrefl. eassumption.
Qed.

Lemma alpha_cut_mass_crisp (membership distribution : ndarray) :
  crisp membership ->
  alpha_cut_mass membership distribution 1
  = np.dot_aligned membership distribution.
Proof.
  intros Hc. revert distribution. unfold alpha_cut_mass.
  induction Hc as [|m membership Hm _ IH]; intros [|p distribution];
    simpl; try reflexivity.
  rewrite <- IH. destruct Hm as [-> | ->].
  - replace (Qcleb 1 0) with false by (vm_compute; reflexivity). ring.
  - replace (Qcleb 1 1) with true by (vm_compute; reflexivity). simpl. ring.
Qed.

(** X17. For a crisp event (every membership of the normalised event is 0 or
    1, and some membership is 1) [fuzzy_probability] returns the single
    alpha level 1 with the probability that [probability] gives for the
    normalised event. *)
Theorem fuzzy_probability_of_crisp_event
  (self : FuzzyProbabilitiesCalculator) (event : ndarray) :
  aligned self ->
  let normalized := length_normalize (length (_universe self)) event in
  crisp normalized -> In 1 normalized ->
  exists p,
    returned (probability normalized) self = Ok p
    /\ returned (fuzzy_probability event) self = Ok ([p], [1]).
Proof.
  intros Hal normalized Hc Hone.
  exists (np.dot_aligned normalized (_probabilities self)).
  unfold returned. rewrite probability_run, fuzzy_probability_run by assumption.
  fold normalized. simpl. unfold np.dot.
  replace (length normalized =? length (_probabilities self))%nat with true.
  2:{ symmetry. apply Nat.eqb_eq. unfold normalized.
      rewrite length_normalize_length. unfold aligned in Hal. congruence. }
  split; [reflexivity|].
  assert (Hlevels : np.trim_zeros (np.unique normalized) = [1]).
  { apply sorted_singleton; [apply trim_zeros_sorted, unique_sorted|].
    intros a. rewrite alpha_levels_nonnegative.
    - unfold crisp in Hc. rewrite Forall_forall in Hc. split.
      + intros [Hin Ha]. destruct (Hc a Hin); [contradiction|assumption].
      + intros ->. split; [assumption|]. apply Q_apart_0_1.
    - eapply Forall_impl; [|exact Hc]. simpl.
      intros m [-> | ->]; vm_compute; discriminate. }
  rewrite Hlevels. simpl. now rewrite alpha_cut_mass_crisp.
Qed.

Lemma fuzzy_probability_of_crisp_event_witness :
  exists p,
    returned (probability (length_normalize 3 [Z2Qc 0; Z2Qc 1]))
             docstring_calculator = Ok p
    /\ returned (fuzzy_probability [Z2Qc 0; Z2Qc 1]) docstring_calculator
       = Ok ([p], [1]).
Proof.
  apply (fuzzy_probability_of_crisp_event docstring_calculator [Z2Qc 0; Z2Qc 1]).
  - reflexivity.
  - apply Forall_cons; [left; reflexivity|].
    apply Forall_cons; [right; reflexivity|].
    apply Forall_cons; [left; reflexivity|]. apply Forall_nil.
  - right. left. reflexivity.
Defined.

(** ** The layer-cake decomposition *)

Lemma staircase_below (previous x : Qc) (alphas : ndarray) :
  Forall (fun a => x < a) alphas -> staircase previous alphas x = 0.
Proof.
  intros H. revert previous.
  induction H as [|a t Ha _ IH]; intros previous; simpl; [reflexivity|].
  rewrite (proj2 (Qcleb_gt a x) Ha), IH. ring.
Qed.

Lemma staircase_value (previous x : Qc) (alphas : ndarray) :
  StronglySorted Qclt alphas -> Forall (Qclt previous) alphas ->
  x = previous \/ In x alphas ->
  staircase previous alphas x = x - previous.
Proof.
  intros Hs. revert previous.
  induction Hs as [|a t Ht IH Ha]; intros previous Hprev Hx; simpl.
  - destruct Hx as [->|[]]. ring.
  - inversion Hprev as [|? ? Hpa _]; subst.
    destruct Hx as [->|[->|Hin]].
    + rewrite (proj2 (Qcleb_gt a previous) Hpa).
      rewrite staircase_below; [ring|].
      eapply Forall_impl; [|exact Ha].
      intros z Hz. eapply Qclt_trans; eassumption.
    + rewrite (proj2 (Qcleb_le x x) (Qcle_refl x)).
      rewrite (IH x Ha (or_introl eq_refl)). ring.
    + assert (Hax : a < x) by (rewrite Forall_forall in Ha; auto).
      rewrite (proj2 (Qcleb_le a x) (Qclt_le_weak _ _ Hax)).
      rewrite (IH a Ha (or_intror Hin)). ring.
Qed.

Lemma alpha_cut_mass_cons (x y a : Qc) (membership distribution : ndarray) :
  alpha_cut_mass (x :: membership) (y :: distribution) a
  = (if Qcleb a x then y else 0) + alpha_cut_mass membership distribution a.
Proof.
  unfold alpha_cut_mass. simpl. destruct (Qcleb a x); simpl; [reflexivity|].
  ring.
Qed.

Lemma layer_cake_cons (previous x y : Qc) (alphas membership distribution : ndarray) :
  layer_cake previous alphas
    (map (alpha_cut_mass (x :: membership) (y :: distribution)) alphas)
  = y * staircase previous alphas x
    + layer_cake previous alphas
        (map (alpha_cut_mass membership distribution) alphas).
Proof.
  revert previous. induction alphas as [|a t IH]; intros previous; simpl.
  - ring.
  - rewrite IH, alpha_cut_mass_cons.
    destruct (Qcleb a x); ring.
Qed.

Lemma layer_cake_no_mass (previous : Qc) (alphas membership distribution : ndarray) :
  combine membership distribution = [] ->
  layer_cake previous alphas
    (map (alpha_cut_mass membership distribution) alphas) = 0.
Proof.
  intros Hc. revert previous.
  induction alphas as [|a t IH]; intros previous; simpl; [reflexivity|].
  rewrite IH. unfold alpha_cut_mass. rewrite Hc. simpl. ring.
Qed.

Lemma layer_cake_dot (alphas membership distribution : ndarray) :
  StronglySorted Qclt alphas -> Forall (Qclt 0) alphas ->
  Forall (fun x => x = 0 \/ In x alphas) membership ->
  layer_cake 0 alphas (map (alpha_cut_mass membership distribution) alphas)
  = np.dot_aligned membership distribution.
Proof.
  intros Hs Hpos Hmem. revert distribution.
  induction Hmem as [|x membership Hx _ IH]; intros distribution.
  - now apply layer_cake_no_mass.
  - destruct distribution as [|y distribution].
    + apply layer_cake_no_mass. now destruct membership.
    + rewrite layer_cake_cons, IH. simpl.
      rewrite (staircase_value 0 x alphas Hs Hpos Hx). ring.
Qed.

(** X18. For an event whose normalised memberships are not negative, the
    two methods agree by the layer-cake formula: the probability of the
    normalised event is the sum, over the alpha levels in ascending order,
    of the step from the previous level (0 before the first) times the
    probability returned for the level. *)
Theorem probability_is_layer_cake_of_fuzzy_probability
  (self : FuzzyProbabilitiesCalculator) (event : ndarray) :
  aligned self ->
  let normalized := length_normalize (length (_universe self)) event in
  Forall (fun m => 0 <= m) normalized ->
  exists probs alphas p,
    returned (fuzzy_probability event) self = Ok (probs, alphas)
    /\ returned (probability normalized) self = Ok p
    /\ layer_cake 0 alphas probs = p.
Proof.
  intros Hal normalized Hnn.
  set (alphas := np.trim_zeros (np.unique normalized)).
  exists (map (alpha_cut_mass normalized (_probabilities self)) alphas),
         alphas, (np.dot_aligned normalized (_probabilities self)).
  unfold returned. rewrite probability_run, fuzzy_probability_run by assumption.
  fold normalized. fold alphas. simpl. unfold np.dot.
  replace (length normalized =? length (_probabilities self))%nat with true.
  2:{ symmetry. apply Nat.eqb_eq. unfold normalized.
      rewrite length_normalize_length. unfold aligned in Hal. congruence. }
  split; [reflexivity|]. split; [reflexivity|].
  pose proof (alpha_levels_nonnegative normalized) as Hlevels.
  rewrite Forall_forall in Hnn.
  apply layer_cake_dot.
  - apply trim_zeros_sorted, unique_sorted.
  - rewrite Forall_forall. intros a Ha.
    apply Hlevels in Ha as [Hin Hz]; [|now apply Forall_forall].
    destruct (Qcle_lt_or_eq _ _ (Hnn a Hin)) as [|E]; [assumption|].
    congruence.
  - rewrite Forall_forall. intros x Hx.
    destruct (Qc_eq_dec x 0) as [|Hz]; [now left|right].
    apply Hlevels; [now apply Forall_forall|auto].
Qed.

Lemma probability_is_layer_cake_of_fuzzy_probability_witness :
  exists probs alphas p,
    returned (fuzzy_probability event1) docstring_calculator
    = Ok (probs, alphas)
    /\ returned (probability (length_normalize 3 event1)) docstring_calculator
       = Ok p
    /\ layer_cake 0 alphas probs = p.
Proof.
  apply (probability_is_layer_cake_of_fuzzy_probability
           docstring_calculator event1).
  - reflexivity.
  - repeat constructor; vm_compute; discriminate.
Defined.

(** ** What depends on the normalised event only *)

(** X19. [fuzzy_probability], [bernoulli] and [add_event] see an event only
    through its length normalisation: two events with the same normalised
    form (an event and the same event with trailing zeros, say) give the
    same outcome and the same state. *)
Theorem outcome_depends_on_normalized_event
  (self : FuzzyProbabilitiesCalculator) (event event' : ndarray)
  (success failure : Z) :
  length_normalize (length (_universe self)) event
  = length_normalize (length (_universe self)) event' ->
  fuzzy_probability event self = fuzzy_probability event' self
  /\ bernoulli event success failure self
     = bernoulli event' success failure self
  /\ add_event event self = add_event event' self.
Proof.
  intros Hsame. unfold fuzzy_probability, bernoulli, add_event.
  repeat split; unfold bind at 1; symmetry; unfold bind at 1;
    rewrite !_normalized_event_run, Hsame; reflexivity.
Qed.

Lemma outcome_depends_on_normalized_event_witness :
  fuzzy_probability short_event docstring_calculator
  = fuzzy_probability (short_event ++ [Z2Qc 0; Z2Qc 0]) docstring_calculator
  /\ bernoulli short_event 2 1 docstring_calculator
     = bernoulli (short_event ++ [Z2Qc 0; Z2Qc 0]) 2 1 docstring_calculator
  /\ add_event short_event docstring_calculator
     = add_event (short_event ++ [Z2Qc 0; Z2Qc 0]) docstring_calculator.
Proof.
  apply (outcome_depends_on_normalized_event docstring_calculator
           short_event (short_event ++ [Z2Qc 0; Z2Qc 0]) 2 1).
  reflexivity.
Defined.

(** ** Bernoulli trials *)

(** X20. [bernoulli] refuses a negative number of successes, and a negative
    total number of trials, with the [ValueError] of [math.comb]. *)
Theorem bernoulli_rejects_negative_counts
  (self : FuzzyProbabilitiesCalculator) (event : ndarray)
  (success failure : Z) :
  aligned self ->
  (success < 0 \/ success + failure < 0)%Z ->
  exists msg,
    returned (bernoulli event success failure) self = Raise (ValueError msg).
Proof.
  intros Hal Hneg. rewrite bernoulli_run by assumption. unfold math.comb.
  destruct (Z.ltb_spec (success + failure) 0); [eexists; reflexivity|].
  destruct (Z.ltb_spec success 0); [eexists; reflexivity|]. lia.
Qed.

Lemma bernoulli_rejects_negative_counts_witness :
  exists msg,
    returned (bernoulli event1 (-1) 3) docstring_calculator
    = Raise (ValueError msg).
Proof.
  apply (bernoulli_rejects_negative_counts docstring_calculator event1 (-1) 3).
  - reflexivity.
  - left. lia.
Defined.

Lemma binomial_symmetry (m k : nat) :
  math.binomial (m + k) k = math.binomial (m + k) m.
Proof.
  pose proof (binomial_factorial m k) as H1.
  pose proof (binomial_factorial k m) as H2.
  rewrite (Nat.add_comm k m) in H2.
  rewrite (Nat.mul_comm (fact m) (fact k)) in H2. rewrite <- H2 in H1.
  apply Nat.mul_cancel_r in H1; [exact H1|].
  pose proof (lt_O_fact k). pose proof (lt_O_fact m). nia.
Qed.

Lemma fuzzy_not_involutive (mf : ndarray) :
  fuzz.fuzzy_not (fuzz.fuzzy_not mf) = mf.
Proof.
  unfold fuzz.fuzzy_not. rewrite map_map.
  rewrite <- (map_id mf) at 2. apply map_ext. intros m. ring.
Qed.

(** X21. Exchanging success and failure: for non-negative counts,
    [bernoulli(event, s, f)] equals [bernoulli] of the complement of the
    normalised event with the counts swapped. *)
Theorem bernoulli_complement_symmetry
  (self : FuzzyProbabilitiesCalculator) (event : ndarray)
  (success failure : Z) :
  aligned self -> (0 <= success)%Z -> (0 <= failure)%Z ->
  let normalized := length_normalize (length (_universe self)) event in
  returned (bernoulli event success failure) self
  = returned (bernoulli (fuzz.fuzzy_not normalized) failure success) self.
Proof.
  intros Hal Hs Hf normalized.
  rewrite !bernoulli_run by assumption. fold normalized.
  rewrite (length_normalize_same _ (fuzz.fuzzy_not normalized))
    by (rewrite fuzzy_not_length; apply length_normalize_length).
  rewrite fuzzy_not_involutive.
  unfold math.comb.
  destruct (Z.ltb_spec (success + failure) 0); [lia|].
  destruct (Z.ltb_spec (failure + success) 0); [lia|].
  destruct (Z.ltb_spec success 0); [lia|].
  destruct (Z.ltb_spec failure 0); [lia|].
  replace (Z.to_nat (success + failure))
    with (Z.to_nat failure + Z.to_nat success)%nat by lia.
  replace (Z.to_nat (failure + success))
    with (Z.to_nat failure + Z.to_nat success)%nat by lia.
  rewrite binomial_symmetry.
  destruct (py_int_to_float _); [|reflexivity].
  f_equal. ring.
Qed.

Lemma bernoulli_complement_symmetry_witness :
  returned (bernoulli short_event 2 1) docstring_calculator
  = returned (bernoulli (fuzz.fuzzy_not (length_normalize 3 short_event)) 1 2)
             docstring_calculator.
Proof.
  apply (bernoulli_complement_symmetry docstring_calculator short_event 2 1);
    [reflexivity | lia | lia].
Defined.

(** ** The binomial theorem for the Bernoulli masses *)

Lemma Z2Qc_plus (a b : Z) : Z2Qc (a + b) = Z2Qc a + Z2Qc b.
Proof.
  unfold Z2Qc, Qcplus. apply Q2Qc_eq_iff. unfold Q2Qc. cbn [this].
  rewrite inject_Z_plus, !Qred_correct. reflexivity.
Qed.

Lemma sum_app (a b : ndarray) : np.sum (a ++ b) = np.sum a + np.sum b.
Proof. induction a as [|x a IH]; simpl; [ring|]. rewrite IH. ring. Qed.

Lemma sum_seq_last (f : nat -> Qc) (m : nat) :
  np.sum (map f (seq 0 (S m))) = np.sum (map f (seq 0 m)) + f m.
Proof. rewrite seq_S, map_app, sum_app. simpl. ring. Qed.

Lemma sum_seq_first (f : nat -> Qc) (m : nat) :
  np.sum (map f (seq 0 (S m)))
  = f O + np.sum (map (fun k => f (S k)) (seq 0 m)).
Proof. simpl. rewrite <- seq_shift, map_map. reflexivity. Qed.

Lemma sum_map_plus (f g : nat -> Qc) (l : list nat) :
  np.sum (map (fun k => f k + g k) l)
  = np.sum (map f l) + np.sum (map g l).
Proof. induction l as [|k l IH]; simpl; [ring|]. rewrite IH. ring. Qed.

Lemma sum_map_scale (c : Qc) (f : nat -> Qc) (l : list nat) :
  np.sum (map (fun k => c * f k) l) = c * np.sum (map f l).
Proof. induction l as [|k l IH]; simpl; [ring|]. rewrite IH. ring. Qed.

Lemma sum_map_ext_seq (f g : nat -> Qc) (m : nat) :
  (forall k, (k < m)%nat -> f k = g k) ->
  np.sum (map f (seq 0 m)) = np.sum (map g (seq 0 m)).
Proof.
  intros H. f_equal. apply map_ext_in. intros k Hk.
  apply in_seq in Hk. apply H. lia.
Qed.

Lemma binomial_mass_zero (p q : Qc) (n : nat) :
  binomial_mass p q (S n) 0 = q * binomial_mass p q n 0.
Proof.
  unfold binomial_mass. rewrite !Nat.sub_0_r.
  destruct n; simpl; ring.
Qed.

Lemma binomial_mass_pascal (p q : Qc) (n k : nat) :
  binomial_mass p q (S n) (S k)
  = p * binomial_mass p q n k
    + Z2Qc (Z.of_nat (math.binomial n (S k))) * p ^ S k * q ^ (n - k).
Proof.
  unfold binomial_mass.
  change (math.binomial (S n) (S k))
    with (math.binomial n k + math.binomial n (S k))%nat.
  rewrite Nat2Z.inj_add, Z2Qc_plus.
  replace (S n - S k)%nat with (n - k)%nat by lia.
  simpl Qcpower. ring.
Qed.

Lemma binomial_mass_upper (p q : Qc) (n k : nat) :
  (k < n)%nat ->
  Z2Qc (Z.of_nat (math.binomial n (S k))) * p ^ S k * q ^ (n - k)
  = q * binomial_mass p q n (S k).
Proof.
  intros Hk. unfold binomial_mass.
  replace (n - k)%nat with (S (n - S k)) by lia.
  simpl Qcpower. ring.
Qed.

(** The masses of [0 .. n] successes in [n] trials sum to [(p + q) ^ n]. *)
Lemma binomial_mass_sum (p q : Qc) (n : nat) :
  np.sum (map (binomial_mass p q n) (seq 0 (S n))) = (p + q) ^ n.
Proof.
  induction n as [|n IH].
  - unfold binomial_mass.
    cbn [seq map np.sum fold_right math.binomial Nat.sub Qcpower].
    change (Z2Qc (Z.of_nat 1)) with 1. ring.
  - rewrite sum_seq_first, binomial_mass_zero.
    rewrite (sum_map_ext_seq _ _ (S n)
               (fun k _ => binomial_mass_pascal p q n k)).
    rewrite sum_map_plus, sum_map_scale, IH.
    rewrite sum_seq_last, binomial_above by lia.
    rewrite (sum_map_ext_seq _ _ n
               (fun k Hk => binomial_mass_upper p q n k Hk)).
    rewrite sum_map_scale.
    assert (Hfirst := sum_seq_first (binomial_mass p q n) n).
    rewrite IH in Hfirst.
    change (Z2Qc (Z.of_nat 0)) with 0.
    simpl Qcpower.
    replace (np.sum (map (fun k => binomial_mass p q n (S k)) (seq 0 n)))
      with ((p + q) ^ n - binomial_mass p q n 0)
      by (rewrite Hfirst; ring).
    ring.
Qed.

(** X22. The Bernoulli masses form a binomial expansion: for [n] trials
    whose binomial coefficients are all within the range of a float (so for
    every [n] up to 1023) the values [bernoulli(event, k, n - k)],
    [k = 0 .. n], are all returned and sum to the [n]-th power of the sum of
    the distribution, so to 1 when the distribution sums to 1. *)
Theorem bernoulli_masses_sum
  (self : FuzzyProbabilitiesCalculator) (event : ndarray) (n : nat) :
  aligned self ->
  (forall k, (k <= n)%nat ->
             (Z.of_nat (math.binomial n k) < int_to_float_limit)%Z) ->
  exists masses,
    length masses = S n
    /\ (forall k, (k <= n)%nat ->
          returned (bernoulli event (Z.of_nat k) (Z.of_nat (n - k))) self
          = Ok (nth k masses 0))
    /\ np.sum masses = np.sum (_probabilities self) ^ n
    /\ (np.sum (_probabilities self) = 1 -> np.sum masses = 1).
Proof.
  intros Hal Hrange.
  set (normalized := length_normalize (length (_universe self)) event).
  set (p := np.dot_aligned normalized (_probabilities self)).
  set (q := np.dot_aligned (fuzz.fuzzy_not normalized) (_probabilities self)).
  assert (Hpq : p + q = np.sum (_probabilities self)).
  { apply dot_aligned_complement. unfold normalized.
    rewrite length_normalize_length. unfold aligned in Hal. congruence. }
  assert (Hsum : np.sum (map (binomial_mass p q n) (seq 0 (S n)))
                 = np.sum (_probabilities self) ^ n)
    by (rewrite binomial_mass_sum; now rewrite Hpq).
  exists (map (binomial_mass p q n) (seq 0 (S n))).
  split; [now rewrite length_map, length_seq|].
  split; [|split; [exact Hsum|]].
  - intros k Hk. rewrite bernoulli_run by assumption.
    fold normalized. fold p. fold q.
    rewrite math_comb_nonnegative by lia.
    replace (Z.to_nat (Z.of_nat k + Z.of_nat (n - k))) with n by lia.
    rewrite Nat2Z.id.
    rewrite py_int_to_float_in_range
      by (split; [apply Nat2Z.is_nonneg|now apply Hrange]).
    rewrite !py_pow_nonnegative by lia. rewrite !Nat2Z.id. f_equal.
    rewrite (nth_indep _ 0 (binomial_mass p q n 0))
      by (rewrite length_map, length_seq; lia).
    rewrite map_nth, seq_nth by lia. reflexivity.
  - intros Hone. rewrite Hsum, Hone. apply Qcpower_1.
Qed.

Lemma bernoulli_masses_sum_witness :
  exists masses,
    length masses = 4%nat
    /\ (forall k, (k <= 3)%nat ->
          returned (bernoulli event1 (Z.of_nat k) (Z.of_nat (3 - k)))
                   docstring_calculator
          = Ok (nth k masses 0))
    /\ np.sum masses = np.sum docstring_probabilities ^ 3
    /\ (np.sum docstring_probabilities = 1 -> np.sum masses = 1).
Proof.
  apply (bernoulli_masses_sum docstring_calculator event1 3).
  - reflexivity.
  - intros k Hk.
    do 4 (destruct k as [|k]; [vm_compute; reflexivity|]). lia.
Defined.

(** ** Edges of combination and construction *)

Lemma select_events_none_kept (events : list ndarray) (events_indices : list Z) :
  (forall idx, In idx events_indices -> (len events <= idx)%Z) ->
  select_events events events_indices = Ok [].
Proof.
  induction events_indices as [|idx rest IH]; intros Hge; simpl;
    [reflexivity|].
  destruct (Z.ltb_spec idx (len events)) as [Hlt|_].
  - specialize (Hge idx (or_introl eq_refl)). lia.
  - apply IH. intros; apply Hge; now right.
Qed.

(** X23. When at least one index is passed and every index is at or above
    the number of registered events (always so on a calculator without
    events, for indices from 0 up), [events_sum] and [events_intersection]
    raise [IndexError]: the filtered selection is empty and its first
    element is read. *)
Theorem combination_raises_when_nothing_kept
  (fuzzy_add fuzzy_and : fuzzy_op) (self : FuzzyProbabilitiesCalculator)
  (events_indices : list Z) :
  events_indices <> [] ->
  (forall idx, In idx events_indices -> (len (_events self) <= idx)%Z) ->
  returned (events_sum fuzzy_add events_indices) self
  = Raise (IndexError "list index out of range")
  /\ returned (events_intersection fuzzy_and events_indices) self
     = Raise (IndexError "list index out of range").
Proof.
  intros Hne Hge. destruct events_indices as [|idx rest]; [congruence|].
  unfold events_sum, events_intersection. rewrite !combine_events_run.
  rewrite (select_events_none_kept _ _ Hge). split; reflexivity.
Qed.

Lemma combination_raises_when_nothing_kept_witness :
  returned (events_sum (pointwise Qcmax) [2%Z; 3%Z]) calculator_with_two_events
  = Raise (IndexError "list index out of range")
  /\ returned (events_intersection (pointwise Qcmin) [2%Z; 3%Z])
              calculator_with_two_events
     = Raise (IndexError "list index out of range").
Proof.
  apply (combination_raises_when_nothing_kept (pointwise Qcmax) (pointwise Qcmin)
           calculator_with_two_events [2%Z; 3%Z]).
  - discriminate.
  - intros idx [<-|[<-|[]]]; vm_compute; discriminate.
Defined.

(** X24. The constructor validates the universe and the distribution
    independently and never compares their lengths: a distribution accepted
    with one universe is accepted, and stored the same, with any other
    universe of distinct elements, whatever its length. *)
Theorem constructor_ignores_lengths
  (universe universe' probabilities : ndarray) (normalize : bool)
  (self : FuzzyProbabilitiesCalculator) :
  __init__ universe probabilities normalize = Ok self ->
  NoDup universe' ->
  __init__ universe' probabilities normalize
  = Ok {| _probabilities := _probabilities self; _universe := universe';
          _events := []; _combined_events := [] |}.
Proof.
  unfold __init__. intros Hok Hu'.
  rewrite (proj2 (universe_diverse_NoDup universe') Hu').
  destruct (utils.universe_diverse universe); simpl in *; [|discriminate].
  destruct (utils.probabilities_valid probabilities); simpl in *;
    [|discriminate].
  destruct (utils.probabilities_normalized probabilities); simpl in *.
  - now injection Hok as <-.
  - destruct normalize; simpl in *; [|discriminate].
    now injection Hok as <-.
Qed.

Lemma constructor_ignores_lengths_witness :
  __init__ [Z2Qc 7] docstring_probabilities false
  = Ok {| _probabilities := _probabilities docstring_calculator;
          _universe := [Z2Qc 7];
          _events := []; _combined_events := [] |}.
Proof.
  apply (constructor_ignores_lengths docstring_universe [Z2Qc 7]
           docstring_probabilities false docstring_calculator).
  - reflexivity.
  - apply universe_diverse_NoDup. vm_compute. reflexivity.
Defined.
